(** * Advanced PK simulator: the numeric core of the two React components

    The repository holds two components.  The legacy one (state [dose],
    [interval], [halfLife], [duration]) superposes IV doses at integer hours.
    The improved one normalises its form state, computes IV or oral
    concentration curves on a quarter-hour grid and derives summary metrics.

    Modelling conventions.
    - In the modules [Js], [Improved] and [Legacy] a JavaScript number is a
      finite real or [NaN], and arithmetic on finite numbers is the
      arithmetic of [R]: [Math.exp], [Math.log], [Math.abs], [Math.max],
      [Math.min] are [exp], [ln], [Rabs], [Rmax], [Rmin], and
      [x.toFixed(f)] is the real denoted by the decimal string it returns.
      Statements over these modules are the ones that do not depend on how
      the engine rounds.
    - Where a statement does depend on it (a time compared with a rounded
      product or quotient, an accumulator that absorbs a small term, an
      exponential that underflows) the functions concerned are given
      again in the module [Double], over IEEE 754 binary64 with rounding to
      nearest even, as the engine computes them.  [Math.exp] and
      [Math.log], which the language leaves to the implementation, are a
      parameter there.
    - A [for] loop whose bound is a number computed at run time is a
      recursive function with fuel returning [option]; a counted loop over
      [0 .. n-1] is a left fold over [seq 0 n]. *)

From Stdlib Require Import Reals Lra Lia List ZArith Zfloor Bool Sorted
  SpecFloat.
Import ListNotations.
Open Scope R_scope.

(* ================================================================== *)
(** ** JavaScript values and builtins used by the components *)

Module Js.

(** The values a numeric state variable can hold: every setter wraps the
    field text in [Number(...)]. *)
Inductive Number : Type :=
| NaN
| Num (r : R).

(** [parseInt] converts its argument to a string first, so on a number it
    is truncation only where the string is in plain decimal notation.  The
    components are verified against every [parseInt] that returns an
    integer or NaN ([None]). *)
Class Runtime : Type := { parseInt : Number -> option Z }.

(** [parseFloat(x)] on a number reads back the string of [x]. *)
Definition parseFloat (x : Number) : Number := x.

(** [x || d]: NaN and 0 are falsy. *)
Definition or_else (x : Number) (d : R) : R :=
  match x with
  | NaN => d
  | Num r => if Req_dec_T r 0 then d else r
  end.

Definition or_elseZ (x : option Z) (d : Z) : Z :=
  match x with
  | None => d
  | Some z => if Z.eqb z 0 then d else z
  end.

(** Comparisons of two finite numbers. *)
Definition Rgeb (a b : R) : bool := if Rge_dec a b then true else false.
Definition Rleb (a b : R) : bool := if Rle_dec a b then true else false.
Definition Rgtb (a b : R) : bool := if Rgt_dec a b then true else false.
Definition Rltb (a b : R) : bool := if Rlt_dec a b then true else false.

(** Comparisons of a finite number with a possibly-NaN one: every
    comparison with NaN is false. *)
Definition geb (a : R) (b : Number) : bool :=
  match b with NaN => false | Num r => Rgeb a r end.
Definition leb (a : R) (b : Number) : bool :=
  match b with NaN => false | Num r => Rleb a r end.
Definition gtb (a : R) (b : Number) : bool :=
  match b with NaN => false | Num r => Rgtb a r end.
Definition ltb (a : R) (b : Number) : bool :=
  match b with NaN => false | Num r => Rltb a r end.

(** [Number.prototype.toFixed]: the sign is split off, magnitudes of at
    least 10^21 are printed as they are, and otherwise the integer [n]
    with [n / 10^f] closest to the magnitude is taken, the larger one on a
    tie. *)
Definition roundHalfUp (x : R) : Z := Zfloor (x + / 2).

Definition toFixedAbs (f : nat) (x : R) : R :=
  if Rle_dec (10 ^ 21) x then x
  else IZR (roundHalfUp (x * 10 ^ f)) / 10 ^ f.

Definition toFixed (f : nat) (x : R) : R :=
  if Rlt_dec x 0 then - toFixedAbs f (- x) else toFixedAbs f x.

(** [Math.max(...xs)] and [Math.min(...xs)] on a non-empty argument list
    [x :: xs]. *)
Definition max_of (x : R) (xs : list R) : R := fold_left Rmax xs x.
Definition min_of (x : R) (xs : list R) : R := fold_left Rmin xs x.

(** A [parseInt] that truncates towards zero: what JavaScript computes on
    0 and on numbers of magnitude in [1e-6, 1e21). *)
Definition truncate (x : Number) : option Z :=
  match x with
  | NaN => None
  | Num r => Some (if Rlt_dec r 0 then (- Zfloor (- r))%Z else Zfloor r)
  end.

End Js.

(* ================================================================== *)
(** ** The improved component *)

Module Improved.

Inductive AdministrationType : Type := iv | oral.

Inductive Status : Type := subtherapeutic | therapeutic | toxic.

(** The [useState] variables that feed the computation. *)
Record State : Type := mkState {
  administrationType : AdministrationType;
  dose : Js.Number;
  volume : Js.Number;
  ke : Js.Number;
  ka : Js.Number;
  bioavailability : Js.Number;
  dosingInterval : Js.Number;
  numberOfDoses : Js.Number;
  therapeuticMin : Js.Number;
  therapeuticMax : Js.Number
}.

(** The initial values of the state variables. *)
Definition initialState : State :=
  mkState iv (Js.Num 500) (Js.Num 50) (Js.Num 0.1) (Js.Num 0.5)
          (Js.Num 0.8) (Js.Num 8) (Js.Num 1) (Js.Num 5) (Js.Num 15).

Definition epsilon : R := 1e-9.

(** One element of [timePoints]. *)
Module Sample.
Record t : Type := mk {
  time : R;
  concentration : R;
  therapeuticMin : Js.Number;
  therapeuticMax : Js.Number;
  inRange : bool;
  status : Status
}.
End Sample.

(** IV bolus: [C0 * Math.exp(-keVal * t)]. *)
Definition calculateIVBolus (t C0 keVal : R) : R := C0 * exp (- keVal * t).

(** Oral dose with the limit form when [ka] and [ke] nearly coincide. *)
Definition calculateOralDose (t D V kaVal keVal F : R) : R :=
  if Rlt_dec (Rabs (kaVal - keVal)) 1e-6 then
    (F * D * kaVal / V) * t * exp (- kaVal * t)
  else
    let coeff := (F * D * kaVal) / (V * (kaVal - keVal)) in
    coeff * (exp (- keVal * t) - exp (- kaVal * t)).

(** Superposition: the loop [for (i = 0; i < numberOfDosesVal; i++)]. *)
Definition calculateMultipleDoses (t : R) (singleDoseFunc : R -> R)
           (dosingIntervalVal : R) (numberOfDosesVal : Z) : R :=
  fold_left
    (fun total i =>
       let doseTime := INR i * dosingIntervalVal in
       if Rge_dec t doseTime then total + singleDoseFunc (t - doseTime)
       else total)
    (seq 0 (Z.to_nat numberOfDosesVal)) 0.

Section Component.
Context {rt : Js.Runtime}.
Variable st : State.

(** Helpers with defensive parsing. *)
Definition nDose : Z :=
  Z.max 1 (Js.or_elseZ (Js.parseInt (numberOfDoses st)) 1).
Definition intv : R :=
  Rmax 0.1 (Js.or_else (Js.parseFloat (dosingInterval st)) 0.1).
Definition numericDose : R :=
  Rmax 0 (Js.or_else (Js.parseFloat (dose st)) 0).
Definition numericV : R :=
  Rmax 0.0001 (Js.or_else (Js.parseFloat (volume st)) 0.0001).
Definition numericKe : R :=
  Rmax epsilon (Js.or_else (Js.parseFloat (ke st)) epsilon).
Definition numericKa : R :=
  Rmax epsilon (Js.or_else (Js.parseFloat (ka st)) epsilon).
Definition numericF : R :=
  Rmin 1 (Rmax 0 (Js.or_else (Js.parseFloat (bioavailability st)) 0)).

(** *** simulatePK *)

Definition dt : R := 0.25.

Definition maxTime : R := Rmax 24 (IZR nDose * intv + 24).

(** The single-dose response chosen by the route. *)
Definition single (tau : R) : R :=
  match administrationType st with
  | iv =>
      let C0 := numericDose / numericV in
      calculateIVBolus tau C0 numericKe
  | oral =>
      calculateOralDose tau numericDose numericV numericKa numericKe
                        numericF
  end.

(** The concentration computed in the loop body at time [t]. *)
Definition concentrationAt (t : R) : R :=
  calculateMultipleDoses t single intv nDose.

(** The record pushed at time [t]. *)
Definition samplePoint (t : R) : Sample.t :=
  let concentration := concentrationAt t in
  let inRange :=
    Js.geb concentration (therapeuticMin st)
    && Js.leb concentration (therapeuticMax st) in
  let status :=
    if Js.ltb concentration (therapeuticMin st) then subtherapeutic
    else if Js.gtb concentration (therapeuticMax st) then toxic
    else therapeutic in
  Sample.mk (Js.toFixed 2 t) concentration
            (therapeuticMin st) (therapeuticMax st) inRange status.

(** [for (let t = 0; t <= maxTime + 1e-9; t += dt)]. *)
Fixpoint simulateLoop (fuel : nat) (t : R) (timePoints : list Sample.t)
  : option (list Sample.t) :=
  match fuel with
  | O => None
  | S fuel' =>
      if Rle_dec t (maxTime + 1e-9) then
        simulateLoop fuel' (t + dt) (timePoints ++ [samplePoint t])
      else Some timePoints
  end.

Definition simulatePK (fuel : nat) : option (list Sample.t) :=
  simulateLoop fuel 0 [].

(** *** calculateMetrics *)

(** The record returned by the memoised metrics computation.  A field that
    the component renders as a dash or leaves [null] is [None]. *)
Record Metrics : Type := mkMetrics {
  halfLife : R;
  Tmax : option R;
  Cmax : option R;
  AUC : R;
  percentInRange : R;
  Css_avg : option R;
  Css_max : option R;
  Css_min : option R
}.

Definition halfLifeOf : R := ln 2 / numericKe.

(** [Tmax] and [Cmax] before formatting: both stay [null] unless the route
    is oral and [numericKa > numericKe + 1e-12]. *)
Definition peak : option R * option R :=
  match administrationType st with
  | oral =>
      if Rgt_dec numericKa (numericKe + 1e-12) then
        let Tmax := ln (numericKa / numericKe) / (numericKa - numericKe) in
        let Cmax :=
          calculateOralDose Tmax numericDose numericV numericKa numericKe
                            numericF in
        (Some Tmax, Some Cmax)
      else (None, None)
  | iv => (None, None)
  end.

(** AUC by trapezoid: [for (let i = 1; i < data.length; i++)], reading
    [data[i]] and [data[i - 1]]. *)
Definition trapezoidLoop (data : list Sample.t) : R :=
  let time i := nth i (map Sample.time data) 0 in
  let conc i := nth i (map Sample.concentration data) 0 in
  fold_left
    (fun AUC i =>
       let dt := time i - time (i - 1)%nat in
       AUC + (conc i + conc (i - 1)%nat) / 2 * dt)
    (seq 1 (length data - 1)) 0.

(** The steady-state block: the three [Css] variables after it ran. *)
Definition steadyState (data : list Sample.t)
  : option R * option R * option R :=
  match data with
  | [] => (None, None, None)
  | d0 :: _ =>
      let lastTime := Sample.time (last data d0) in
      let sufficientTimeForSteadyState := Js.Rgeb lastTime (5 * halfLifeOf) in
      if (1 <? nDose)%Z && sufficientTimeForSteadyState then
        let windowHours := Rmin (5 * halfLifeOf) (intv * 4) in
        let startTime := lastTime - windowHours in
        let steadyData :=
          filter (fun d => Js.Rgeb (Sample.time d) startTime) data in
        match map Sample.concentration steadyData with
        | [] => (None, None, None)
        | c :: cs =>
            (Some (Js.toFixed 3
                     (fold_left Rplus (c :: cs) 0
                      / INR (length steadyData))),
             Some (Js.toFixed 3 (Js.max_of c cs)),
             Some (Js.toFixed 3 (Js.min_of c cs)))
        end
      else (None, None, None)
  end.

Definition calculateMetrics (data : list Sample.t) : option Metrics :=
  match data with
  | [] => None
  | _ :: _ =>
      let '(Tmax, Cmax) := peak in
      let AUC := trapezoidLoop data in
      let therapeuticPoints := length (filter Sample.inRange data) in
      let percentInRange :=
        INR therapeuticPoints / INR (length data) * 100 in
      let '(Css_avg, Css_max, Css_min) := steadyState data in
      Some (mkMetrics (Js.toFixed 3 halfLifeOf)
                      (option_map (Js.toFixed 3) Tmax)
                      (option_map (Js.toFixed 3) Cmax)
                      (Js.toFixed 3 AUC)
                      (Js.toFixed 1 percentInRange)
                      Css_avg Css_max Css_min)
  end.

End Component.

(** *** CustomTooltip *)

(** The colour class of the status line. *)
Inductive TextColour : Type := green600 | red600 | orange600.

(** What the tooltip shows: the time to two decimals, the concentration to
    four, and the status with its colour. *)
Record TooltipView : Type := mkTooltipView {
  shownTime : R;
  shownConcentration : R;
  shownColour : TextColour;
  shownStatus : Status
}.

(** [if (!active || !payload || !payload.length) return null], then the
    view of [payload[0].payload]. *)
Definition CustomTooltip (active : bool) (payload : option (list Sample.t))
  : option TooltipView :=
  if negb active then None
  else
    match payload with
    | None => None
    | Some [] => None
    | Some (d :: _) =>
        Some (mkTooltipView
                (Js.toFixed 2 (Sample.time d))
                (Js.toFixed 4 (Sample.concentration d))
                (match Sample.status d with
                 | therapeutic => green600
                 | toxic => red600
                 | subtherapeutic => orange600
                 end)
                (Sample.status d))
    end.

End Improved.

(* ================================================================== *)
(** ** The legacy component *)

Module Legacy.

(** The four [useState] variables; the setters store [Number(...)] of the
    field text, taken here to be finite. *)
Record State : Type := mkState {
  dose : R;
  interval : R;
  halfLife : R;
  duration : R
}.

Record Point : Type := mkPoint {
  time : R;
  concentration : R
}.

Section Component.
Variable st : State.

(** Convert half-life to elimination rate constant. *)
Definition k : R := ln 2 / halfLife st.

(** [for (let n = 0; n <= t / interval; n++)], accumulating [conc]. *)
Fixpoint doseLoop (fuel : nat) (t : R) (n : nat) (conc : R) : option R :=
  match fuel with
  | O => None
  | S fuel' =>
      if Rle_dec (INR n) (t / interval st) then
        let doseTime := INR n * interval st in
        doseLoop fuel' t (S n)
                 (if Rge_dec t doseTime
                  then conc + dose st * exp (- k * (t - doseTime))
                  else conc)
      else Some conc
  end.

(** The concentration pushed for hour [t]. *)
Definition concentrationAt (fuel : nat) (t : R) : option R :=
  doseLoop fuel t 0 0.

(** [for (let t = 0; t <= duration; t++)], accumulating [data]. *)
Fixpoint timeLoop (innerFuel fuel : nat) (t : nat) (data : list Point)
  : option (list Point) :=
  match fuel with
  | O => None
  | S fuel' =>
      if Rle_dec (INR t) (duration st) then
        match concentrationAt innerFuel (INR t) with
        | None => None
        | Some conc =>
            timeLoop innerFuel fuel' (S t) (data ++ [mkPoint (INR t) conc])
        end
      else Some data
  end.

Definition data (fuel : nat) : option (list Point) := timeLoop fuel fuel 0 [].

End Component.

End Legacy.

(* ================================================================== *)
(** ** The components' arithmetic in binary64 *)

Module Double.

(** A number as the engine holds it: zero, infinity, NaN or a finite
    binary64 value [m * 2 ^ e]. *)
Definition number : Type := spec_float.

Definition prec : Z := 53.
Definition emax : Z := 1024.

(** [+], [-], [*], [/] and unary minus, rounded to nearest even. *)
Definition add : number -> number -> number := SFadd prec emax.
Definition sub : number -> number -> number := SFsub prec emax.
Definition mul : number -> number -> number := SFmul prec emax.
Definition div : number -> number -> number := SFdiv prec emax.
Definition opp : number -> number := SFopp.

(** [x <= y], [x < y] and [x >= y]; each is false when an operand is NaN. *)
Definition leb (x y : number) : bool := SFleb x y.
Definition ltb (x y : number) : bool := SFltb x y.
Definition geb (x y : number) : bool := SFleb y x.

Definition zero : number := S754_zero false.

(** An integer, and a loop counter: counting up from 0 by [++] is exact
    below [2 ^ 53]. *)
Definition of_Z (z : Z) : number := binary_normalize prec emax z 0 false.
Definition of_nat (i : nat) : number := of_Z (Z.of_nat i).

(** The number read from the decimal text [m * 10 ^ (- k)], for
    [|m| < 2 ^ 53] and [k <= 22]: numerator and denominator are exact, so
    the quotient is the binary64 value nearest to the decimal. *)
Definition decimal (m : Z) (k : nat) : number :=
  div (of_Z m) (of_Z (10 ^ Z.of_nat k)).

(** The real number a finite value stands for. *)
Definition toR (x : number) : R :=
  match x with
  | S754_finite s m e =>
      IZR (cond_Zopp s (Zpos m) * 2 ^ Z.max 0 e) / IZR (2 ^ Z.max 0 (- e))
  | _ => 0
  end.

(** [Math.exp] and [Math.log] return an implementation-approximated
    value: they are a parameter of the model. *)
Class MathLib : Type := {
  Math_exp : number -> number;
  Math_log : number -> number
}.

(** A reference library, used where a statement needs concrete values: the
    series of the exponential and of the logarithm are summed in fixed
    point with 128 fractional bits, far more than the 53 bits kept, and
    the result is rounded to nearest (an engine returns that value or a
    neighbour of it). *)
Module Reference.

Definition bits : Z := 128.

(** The product of two fixed-point numbers. *)
Definition scaled (a b : Z) : Z := Z.shiftr (a * b) bits.

(** [z + z^3 / 3 + z^5 / 5 + ...], for [0 <= z <= 1/3]. *)
Fixpoint atanhSeries (n : nat) (z2 term j acc : Z) : Z :=
  match n with
  | O => acc
  | S n' => atanhSeries n' z2 (scaled term z2) (j + 2) (acc + term / j)
  end.

Definition atanh (z : Z) : Z := atanhSeries 45 (scaled z z) z 1 0.

(** [ln 2 = 2 * atanh (1/3)]. *)
Definition ln2 : Z := Eval vm_compute in (2 * atanh (2 ^ bits / 3))%Z.

(** [1 + r + r^2 / 2! + ...], for [|r| <= ln 2 / 2]. *)
Fixpoint expSeries (n : nat) (r term j acc : Z) : Z :=
  match n with
  | O => acc
  | S n' => expSeries n' r (scaled term r / j) (j + 1) (acc + term)
  end.

(** [exp x = 2 ^ k * exp r] with [x = k * ln 2 + r]; [exp (+-0) = 1],
    [exp (-inf) = +0], and arguments of magnitude [2 ^ 12] or more
    overflow or underflow. *)
Definition exp (x : number) : number :=
  match x with
  | S754_nan => S754_nan
  | S754_zero _ => of_Z 1
  | S754_infinity s => if s then zero else S754_infinity false
  | S754_finite s m e =>
      if (11 <? Z.log2 (Zpos m) + e)%Z
      then if s then zero else S754_infinity false
      else
        let X := cond_Zopp s (Z.shiftl (Zpos m) (e + bits)) in
        let k := ((2 * X + ln2) / (2 * ln2))%Z in
        binary_normalize prec emax
                         (expSeries 40 (X - k * ln2) (2 ^ bits) 1 0)
                         (k - bits) false
  end.

(** [ln (m * 2 ^ e) = (e + d) * ln 2 + 2 * atanh ((m' - 1) / (m' + 1))]
    with [m' = m / 2 ^ d] in [[1, 2)]. *)
Definition log (x : number) : number :=
  match x with
  | S754_nan => S754_nan
  | S754_zero _ => S754_infinity true
  | S754_infinity s => if s then S754_nan else S754_infinity false
  | S754_finite true _ _ => S754_nan
  | S754_finite false m e =>
      let d := Z.log2 (Zpos m) in
      let z := (Z.shiftl (Zpos m - 2 ^ d) bits / (Zpos m + 2 ^ d))%Z in
      binary_normalize prec emax ((e + d) * ln2 + 2 * atanh z) (- bits) false
  end.

End Reference.

(** *** The improved component *)

(** The two fields of a sample that the AUC loop reads. *)
Module Sample.
Record t : Type := mk {
  time : number;
  concentration : number
}.
End Sample.

(** IV bolus: [C0 * Math.exp(-keVal * t)]. *)
Definition calculateIVBolus {lib : MathLib} (t C0 keVal : number) : number :=
  mul C0 (Math_exp (mul (opp keVal) t)).

(** Superposition: the loop [for (i = 0; i < numberOfDosesVal; i++)], with
    the test [t >= doseTime] made on the rounded product
    [i * dosingIntervalVal]. *)
Definition calculateMultipleDoses (t : number)
           (singleDoseFunc : number -> number)
           (dosingIntervalVal : number) (numberOfDosesVal : Z) : number :=
  fold_left
    (fun total i =>
       let doseTime := mul (of_nat i) dosingIntervalVal in
       if geb t doseTime then add total (singleDoseFunc (sub t doseTime))
       else total)
    (seq 0 (Z.to_nat numberOfDosesVal)) zero.

(** [Math.max] of two numbers: NaN if either is, and [+0] above [-0]. *)
Definition max (x y : number) : number :=
  match x, y with
  | S754_nan, _ | _, S754_nan => S754_nan
  | _, _ =>
      if ltb x y then y
      else if ltb y x then x
      else match x with S754_zero true => y | _ => x end
  end.

(** [simulatePK]: the step, the horizon, and the loop condition
    [t <= maxTime + 1e-9]. *)
Definition dt : number := decimal 25 2.

Definition maxTime (nDose : Z) (intv : number) : number :=
  max (of_Z 24) (add (mul (of_Z nDose) intv) (of_Z 24)).

Definition inLoop (nDose : Z) (intv t : number) : bool :=
  leb t (add (maxTime nDose intv) (decimal 1 9)).

(** AUC by trapezoid: [AUC += (c_i + c_(i-1)) / 2 * dt]. *)
Definition trapezoidLoop (data : list Sample.t) : number :=
  let time i := nth i (map Sample.time data) zero in
  let conc i := nth i (map Sample.concentration data) zero in
  fold_left
    (fun AUC i =>
       let dt := sub (time i) (time (i - 1)%nat) in
       add AUC (mul (div (add (conc i) (conc (i - 1)%nat)) (of_Z 2)) dt))
    (seq 1 (length data - 1)) zero.

(** *** The legacy component *)

Module Legacy.

Record State : Type := mkState {
  dose : number;
  interval : number;
  halfLife : number;
  duration : number
}.

Section Component.
Context {lib : MathLib}.
Variable st : State.

(** Convert half-life to elimination rate constant. *)
Definition k : number := div (Math_log (of_Z 2)) (halfLife st).

(** [for (let n = 0; n <= t / interval; n++)], accumulating [conc]; the
    bound is the rounded quotient. *)
Fixpoint doseLoop (fuel : nat) (t : number) (n : nat) (conc : number)
  : option number :=
  match fuel with
  | O => None
  | S fuel' =>
      if leb (of_nat n) (div t (interval st)) then
        let doseTime := mul (of_nat n) (interval st) in
        doseLoop fuel' t (S n)
                 (if geb t doseTime
                  then add conc
                           (mul (dose st)
                                (Math_exp (mul (opp k) (sub t doseTime))))
                  else conc)
      else Some conc
  end.

(** The concentration pushed for hour [t]. *)
Definition concentrationAt (fuel : nat) (t : number) : option number :=
  doseLoop fuel t 0 zero.

End Component.

End Legacy.

End Double.

(* ================================================================== *)
(** ** Specification-side notions and concrete inputs *)

Module Spec.

(** Sum of a list of terms. *)
Definition sum (xs : list R) : R := fold_right Rplus 0 xs.

(** The dose indices of [0 .. n-1] administered no later than [t]. *)
Definition dosesGiven (t tau : R) (n : Z) : list nat :=
  filter (fun i => Js.Rleb (INR i * tau) t) (seq 0 (Z.to_nat n)).

(** The trapezoidal sum over consecutive samples. *)
Fixpoint trapezoid (data : list Improved.Sample.t) : R :=
  match data with
  | a :: (b :: _) as rest =>
      (Improved.Sample.concentration b + Improved.Sample.concentration a) / 2
      * (Improved.Sample.time b - Improved.Sample.time a)
      + trapezoid rest
  | _ => 0
  end.

(** Samples with non-negative concentrations, and with non-decreasing
    times. *)
Definition nonnegative (data : list Improved.Sample.t) : Prop :=
  Forall (fun s => 0 <= Improved.Sample.concentration s) data.

Definition timeOrdered (data : list Improved.Sample.t) : Prop :=
  Sorted (fun a b => Improved.Sample.time a <= Improved.Sample.time b) data.



(** The body of the legacy dose loop at hour [t]. *)
Definition legacyBody (st : Legacy.State) (t : R) (conc : R) (n : nat) : R :=
  let doseTime := INR n * Legacy.interval st in
  if Rge_dec t doseTime
  then conc + Legacy.dose st * exp (- Legacy.k st * (t - doseTime))
  else conc.

(** [M] is the last dose index with [M <= t / interval]. *)
Definition lastDose (st : Legacy.State) (t : R) (M : nat) : Prop :=
  INR M <= t / Legacy.interval st < INR (S M).

(** The value the legacy dose loop accumulates at hour [t]. *)
Definition legacyConc (st : Legacy.State) (t : nat) : R :=
  fold_left (legacyBody st (INR t))
            (seq 0 (S (Z.to_nat (Zfloor (INR t / Legacy.interval st))))) 0.

(** [K] is the index of the last grid point within the sampling loop's
    bound [maxTime + 1e-9]. *)
Definition lastIndex {rt : Js.Runtime} (st : Improved.State) (K : nat) : Prop :=
  INR K * Improved.dt <= Improved.maxTime st + 1e-9
  < INR (S K) * Improved.dt.

(** The body of the legacy dose loop at hour [t], in binary64. *)
Definition legacyBodyB {lib : Double.MathLib} (st : Double.Legacy.State)
           (t : Double.number) (conc : Double.number) (n : nat)
  : Double.number :=
  let doseTime := Double.mul (Double.of_nat n) (Double.Legacy.interval st) in
  if Double.geb t doseTime
  then Double.add conc
                  (Double.mul (Double.Legacy.dose st)
                              (Double.Math_exp
                                 (Double.mul (Double.opp (Double.Legacy.k st))
                                             (Double.sub t doseTime))))
  else conc.

(** Binary64 samples with non-negative concentrations, and with
    non-decreasing times. *)
Definition nonnegativeB (data : list Double.Sample.t) : bool :=
  forallb (fun s => Double.leb Double.zero (Double.Sample.concentration s))
          data.

Fixpoint timeOrderedB (data : list Double.Sample.t) : bool :=
  match data with
  | a :: (b :: _) as rest =>
      Double.leb (Double.Sample.time a) (Double.Sample.time b)
      && timeOrderedB rest
  | _ => true
  end.

(** The sum the engine accumulates: terms added in order, from [+0]. *)
Definition total (xs : list Double.number) : Double.number :=
  fold_left Double.add xs Double.zero.

(** The dose indices of [0 .. n-1] that pass the engine's test
    [t >= i * tau], made on the rounded product. *)
Definition dosesCounted (t tau : Double.number) (n : Z) : list nat :=
  filter (fun i => Double.geb t (Double.mul (Double.of_nat i) tau))
         (seq 0 (Z.to_nat n)).

End Spec.

(** The runtime whose [parseInt] truncates. *)
Definition truncating : Js.Runtime := {| Js.parseInt := Js.truncate |}.

(** One dose at an interval just below a quarter of an hour. *)
Definition nearQuarter : Improved.State :=
  Improved.mkState Improved.iv (Js.Num 500) (Js.Num 50) (Js.Num 0.1)
                   (Js.Num 0.5) (Js.Num 0.8) (Js.Num 0.2499999999)
                   (Js.Num 1) (Js.Num 5) (Js.Num 15).

(** The initial parameters with another therapeutic band. *)
Definition withBand (lo hi : Js.Number) : Improved.State :=
  Improved.mkState Improved.iv (Js.Num 500) (Js.Num 50) (Js.Num 0.1)
                   (Js.Num 0.5) (Js.Num 0.8) (Js.Num 8) (Js.Num 1) lo hi.

(** A band that is not numeric below and negative above. *)
Definition unclampedBand : Improved.State := withBand Js.NaN (Js.Num (-5)).

(** Every field is NaN. *)
Definition allNaN : Improved.State :=
  Improved.mkState Improved.iv Js.NaN Js.NaN Js.NaN Js.NaN Js.NaN Js.NaN
                   Js.NaN Js.NaN Js.NaN.

(** No dose at all. *)
Definition zeroDose : Improved.State :=
  Improved.mkState Improved.iv (Js.Num 0) (Js.Num 50) (Js.Num 0.1)
                   (Js.Num 0.5) (Js.Num 0.8) (Js.Num 8) (Js.Num 1)
                   (Js.Num 5) (Js.Num 15).

(** Two doses of a microgram-scale amount with a fast elimination. *)
Definition tinyDose : Improved.State :=
  Improved.mkState Improved.iv (Js.Num 0.000001) (Js.Num 50) (Js.Num 1)
                   (Js.Num 0.5) (Js.Num 0.8) (Js.Num 8) (Js.Num 2)
                   (Js.Num 5) (Js.Num 15).

(** The initial parameters on the oral route: [ka] 0.5, [ke] 0.1. *)
Definition oralDefault : Improved.State :=
  Improved.mkState Improved.oral (Js.Num 500) (Js.Num 50) (Js.Num 0.1)
                   (Js.Num 0.5) (Js.Num 0.8) (Js.Num 8) (Js.Num 1)
                   (Js.Num 5) (Js.Num 15).


(** Two hand-written samples, one hour apart. *)
Definition twoSamples : list Improved.Sample.t :=
  [ Improved.Sample.mk 0 1 (Js.Num 5) (Js.Num 15) false
                       Improved.subtherapeutic;
    Improved.Sample.mk 1 2 (Js.Num 5) (Js.Num 15) false
                       Improved.subtherapeutic ].


(** The initial state of the legacy component. *)
Definition legacyInitial : Legacy.State := Legacy.mkState 500 8 6 48.

(** The reference [Math.exp] and [Math.log]. *)
Definition reference : Double.MathLib :=
  {| Double.Math_exp := Double.Reference.exp;
     Double.Math_log := Double.Reference.log |}.

(** The legacy defaults in binary64, and with the interval field set
    to 2.2. *)
Definition legacyDefaults : Double.Legacy.State :=
  Double.Legacy.mkState (Double.of_Z 500) (Double.of_Z 8) (Double.of_Z 6)
                        (Double.of_Z 48).

Definition legacyBoundary : Double.Legacy.State :=
  Double.Legacy.mkState (Double.of_Z 500) (Double.decimal 22 1)
                        (Double.of_Z 6) (Double.of_Z 48).

(** The sample of the IV run with dose 500, volume 50, [ke] 5 and one dose
    at grid time [t], and the first [m] samples of that run from [t] on,
    [t] advancing by [t += dt]. *)
Definition fastEliminationSample (t : Double.number) : Double.Sample.t :=
  Double.Sample.mk
    t
    (Double.calculateMultipleDoses
       t
       (fun tau =>
          @Double.calculateIVBolus
            reference tau (Double.div (Double.of_Z 500) (Double.of_Z 50))
            (Double.of_Z 5))
       (Double.of_Z 8) 1).

Fixpoint fastEliminationRun (m : nat) (t : Double.number)
  : list Double.Sample.t :=
  match m with
  | O => []
  | S m' =>
      fastEliminationSample t
      :: fastEliminationRun m' (Double.add t Double.dt)
  end.

(* ================================================================== *)
(** ** Facts about the builtins *)

Import Improved.

Lemma or_else_Num (r d : R) : r <> 0 -> Js.or_else (Js.Num r) d = r.
Proof. intros Hr. cbn. destruct (Req_dec_T r 0); [contradiction|reflexivity]. Qed.

Lemma truncate_nonneg (z : Z) :
  (0 <= z)%Z -> Js.truncate (Js.Num (IZR z)) = Some z.
Proof.
  intros Hz. unfold Js.truncate. destruct (Rlt_dec (IZR z) 0) as [H|H].
  - apply lt_IZR in H. lia.
  - now rewrite ZfloorZ.
Qed.


Lemma Rleb_true (a b : R) : Js.Rleb a b = true <-> a <= b.
Proof.
  unfold Js.Rleb. destruct (Rle_dec a b); split; intros;
    try reflexivity; try discriminate; lra.
Qed.

(* ================================================================== *)
(** ** Concentration model *)

Lemma fold_left_cond_sum (t tau : R) (f : R -> R) (l : list nat) (acc : R) :
  fold_left
    (fun total i =>
       let doseTime := INR i * tau in
       if Rge_dec t doseTime then total + f (t - doseTime) else total)
    l acc
  = acc + Spec.sum (map (fun i => f (t - INR i * tau))
                        (filter (fun i => Js.Rleb (INR i * tau) t) l)).
Proof.
  unfold Spec.sum.
  revert acc; induction l as [|i l IH]; intros acc;
    cbn [fold_left filter map fold_right].
  - lra.
  - rewrite IH. unfold Js.Rleb.
    destruct (Rge_dec t (INR i * tau)), (Rle_dec (INR i * tau) t);
      cbn [map fold_right]; lra.
Qed.

Lemma calculateMultipleDoses_sum (t : R) (f : R -> R) (tau : R) (n : Z) :
  calculateMultipleDoses t f tau n
  = Spec.sum (map (fun i => f (t - INR i * tau)) (Spec.dosesGiven t tau n)).
Proof.
  unfold calculateMultipleDoses, Spec.dosesGiven.
  rewrite fold_left_cond_sum. lra.
Qed.

Lemma dosesGiven_spec (t tau : R) (n : Z) (i : nat) :
  In i (Spec.dosesGiven t tau n) <-> (Z.of_nat i < n)%Z /\ INR i * tau <= t.
Proof.
  unfold Spec.dosesGiven. rewrite filter_In, in_seq, Rleb_true.
  split; intros [Hi Ht]; (split; [lia|exact Ht]).
Qed.

(** *** Superposition as the engine computes it *)

Lemma fold_left_counted (t tau : Double.number)
      (f : Double.number -> Double.number) (l : list nat)
      (acc : Double.number) :
  fold_left
    (fun total i =>
       let doseTime := Double.mul (Double.of_nat i) tau in
       if Double.geb t doseTime
       then Double.add total (f (Double.sub t doseTime))
       else total)
    l acc
  = fold_left Double.add
              (map (fun i => f (Double.sub t (Double.mul (Double.of_nat i) tau)))
                   (filter
                      (fun i => Double.geb t (Double.mul (Double.of_nat i) tau))
                      l))
              acc.
Proof.
  revert acc; induction l as [|i l IH]; intros acc;
    cbn [fold_left filter map]; [reflexivity|].
  cbv zeta.
  destruct (Double.geb t (Double.mul (Double.of_nat i) tau));
    cbn [map fold_left]; apply IH.
Qed.

Lemma toR_finite (s : bool) (m : positive) (e a b : Z) :
  (cond_Zopp s (Zpos m) * 2 ^ Z.max 0 e)%Z = a ->
  (2 ^ Z.max 0 (- e))%Z = b ->
  Double.toR (S754_finite s m e) = IZR a / IZR b.
Proof. intros <- <-. reflexivity. Qed.

(** The integer 33 is stored exactly; the field text 2.2 is stored as
    [4953959590107546 / 2 ^ 51], a little above 2.2. *)
Lemma boundary_values :
  Double.toR (Double.of_Z 33) = 33
  /\ Double.toR (Double.decimal 22 1)
     = 4953959590107546 / 2251799813685248.
Proof.
  split.
  - replace (Double.of_Z 33)
      with (S754_finite false 4644337115725824 (-47))
      by (vm_compute; reflexivity).
    rewrite (toR_finite false 4644337115725824 (-47)
                        4644337115725824 140737488355328)
      by reflexivity.
    lra.
  - replace (Double.decimal 22 1)
      with (S754_finite false 4953959590107546 (-51))
      by (vm_compute; reflexivity).
    now rewrite (toR_finite false 4953959590107546 (-51)
                            4953959590107546 2251799813685248)
      by reflexivity.
Qed.

(** C1, as stated, fails in the engine's arithmetic.  At [t = 33] with the
    interval field 2.2 the stored interval is slightly above 2.2, so dose
    15 is due after [t] and the claimed index set is [0 .. 14]; but the
    product [15 * tau] rounds to 33, the test [t >= doseTime] passes, and
    for sixteen doses of the constant response 1 the loop returns 16 where
    the claimed sum is 15. *)
Lemma C1_counterexample :
  let t := Double.of_Z 33 in
  let tau := Double.decimal 22 1 in
  Double.toR t < 15 * Double.toR tau
  /\ Spec.dosesGiven (Double.toR t) (Double.toR tau) 16 = seq 0 15
  /\ Spec.sum (map (fun _ => Double.toR (Double.of_Z 1))
                   (Spec.dosesGiven (Double.toR t) (Double.toR tau) 16))
     = 15
  /\ Double.mul (Double.of_nat 15) tau = t
  /\ Double.calculateMultipleDoses t (fun _ => Double.of_Z 1) tau 16
     = Double.of_Z 16
  /\ Double.toR (Double.of_Z 16) = 16.
Proof.
  intros t tau. subst t tau.
  destruct boundary_values as [-> ->].
  set (tau := 4953959590107546 / 2251799813685248).
  assert (Htau : 2.2 < tau < 2.2000000000000003) by (unfold tau; lra).
  assert (Hset : Spec.dosesGiven 33 tau 16 = seq 0 15).
  { unfold Spec.dosesGiven. change (Z.to_nat 16) with 16%nat.
    rewrite (filter_ext_in (fun i => Js.Rleb (INR i * tau) 33)
                           (fun i => (i <? 15)%nat)); [reflexivity|].
    intros i _. destruct (Nat.ltb_spec i 15) as [Hi|Hi].
    - apply Rleb_true.
      assert (INR i <= 14).
      { replace 14 with (INR 14) by (rewrite INR_IZR_INZ; reflexivity).
        apply le_INR. lia. }
      assert (INR i * tau <= 14 * tau)
        by (apply Rmult_le_compat_r; lra).
      lra.
    - unfold Js.Rleb. destruct (Rle_dec (INR i * tau) 33) as [H|H];
        [|reflexivity].
      assert (15 <= INR i).
      { replace 15 with (INR 15) by (rewrite INR_IZR_INZ; reflexivity).
        apply le_INR. lia. }
      assert (15 * tau <= INR i * tau)
        by (apply Rmult_le_compat_r; lra).
      lra. }
  split; [lra|]. split; [exact Hset|]. split; [|split; [|split]].
  - rewrite Hset.
    replace (Double.of_Z 1) with (S754_finite false 4503599627370496 (-52))
      by (vm_compute; reflexivity).
    rewrite (toR_finite false 4503599627370496 (-52)
                        4503599627370496 4503599627370496)
      by reflexivity.
    cbn [seq map Spec.sum fold_right]. lra.
  - vm_compute. reflexivity.
  - vm_compute. reflexivity.
  - replace (Double.of_Z 16)
      with (S754_finite false 4503599627370496 (-48))
      by (vm_compute; reflexivity).
    rewrite (toR_finite false 4503599627370496 (-48)
                        4503599627370496 281474976710656)
      by reflexivity.
    lra.
Qed.

(** C1 (amended).  The multi-dose concentration is the sum, accumulated in
    index order from 0, of [single (t - i * tau)] over exactly the dose
    indices [i < n] that pass the test [t >= i * tau], where the product
    and the difference are the rounded binary64 values the loop computes.
    For IV with dose 500, interval 8, three doses and [ke] 0.1 the
    concentration at [t = 16] is [single 16 + single 8 + single 0], for
    every volume and every [Math.exp]. *)
Theorem C1_superposition :
  (forall (t : Double.number) (singleDoseFunc : Double.number -> Double.number)
          (tau : Double.number) (n : Z),
      Double.calculateMultipleDoses t singleDoseFunc tau n
      = Spec.total
          (map (fun i =>
                  singleDoseFunc
                    (Double.sub t (Double.mul (Double.of_nat i) tau)))
               (Spec.dosesCounted t tau n))
      /\ NoDup (Spec.dosesCounted t tau n)
      /\ forall i : nat,
          In i (Spec.dosesCounted t tau n)
          <-> (Z.of_nat i < n)%Z
              /\ Double.geb t (Double.mul (Double.of_nat i) tau) = true)
  /\ (forall (lib : Double.MathLib) (V : Double.number),
         let single tau :=
           Double.calculateIVBolus
             tau (Double.div (Double.of_Z 500) V) (Double.decimal 1 1) in
         Double.calculateMultipleDoses (Double.of_Z 16) single
                                       (Double.of_Z 8) 3
         = Double.add
             (Double.add (Double.add Double.zero (single (Double.of_Z 16)))
                         (single (Double.of_Z 8)))
             (single Double.zero)).
Proof.
  split.
  - intros t f tau n. split; [apply fold_left_counted|]. split.
    + unfold Spec.dosesCounted. apply NoDup_filter, seq_NoDup.
    + intros i. unfold Spec.dosesCounted. rewrite filter_In, in_seq.
      split; intros [Hi Ht]; (split; [lia|exact Ht]).
  - intros lib V single. reflexivity.
Qed.

(** *** The oral branch *)

Lemma oral_far (t D V kaVal keVal F : R) :
  1e-6 <= Rabs (kaVal - keVal) ->
  calculateOralDose t D V kaVal keVal F
  = (F * D * kaVal) / (V * (kaVal - keVal))
    * (exp (- keVal * t) - exp (- kaVal * t)).
Proof.
  intros H. unfold calculateOralDose.
  destruct (Rlt_dec (Rabs (kaVal - keVal)) 1e-6); [lra|reflexivity].
Qed.




(** *** The clamped helpers *)

Section Clamped.
Context {rt : Js.Runtime}.
Variable st : State.

Lemma nDose_ge_1 : (1 <= nDose st)%Z.
Proof. unfold nDose. lia. Qed.

Lemma intv_ge : 0.1 <= intv st.
Proof. apply Rmax_l. Qed.

Lemma numericDose_nonneg : 0 <= numericDose st.
Proof. apply Rmax_l. Qed.

Lemma numericV_ge : 0.0001 <= numericV st.
Proof. apply Rmax_l. Qed.

Lemma numericKe_ge : epsilon <= numericKe st.
Proof. apply Rmax_l. Qed.

Lemma numericKa_ge : epsilon <= numericKa st.
Proof. apply Rmax_l. Qed.

Lemma numericF_range : 0 <= numericF st <= 1.
Proof.
  unfold numericF. split.
  - apply Rmin_glb; [lra|apply Rmax_l].
  - apply Rmin_l.
Qed.

Lemma epsilon_pos : 0 < epsilon.
Proof. unfold epsilon. lra. Qed.

Lemma numericV_pos : 0 < numericV st.
Proof. pose proof numericV_ge. lra. Qed.

Lemma numericKe_pos : 0 < numericKe st.
Proof. pose proof numericKe_ge. pose proof epsilon_pos. lra. Qed.

Lemma numericKa_pos : 0 < numericKa st.
Proof. pose proof numericKa_ge. pose proof epsilon_pos. lra. Qed.

End Clamped.

(** *** Sign and monotonicity of the single-dose responses *)

Lemma iv_at_zero (C0 keVal : R) : calculateIVBolus 0 C0 keVal = C0.
Proof. unfold calculateIVBolus. rewrite Rmult_0_r, exp_0. lra. Qed.

Lemma iv_nonneg (t C0 keVal : R) : 0 <= C0 -> 0 <= calculateIVBolus t C0 keVal.
Proof.
  intros HC. unfold calculateIVBolus.
  apply Rmult_le_pos; [exact HC|]. left. apply exp_pos.
Qed.

Lemma exp_le (x y : R) : x <= y -> exp x <= exp y.
Proof.
  intros [H|H]; [left; now apply exp_increasing|subst; apply Rle_refl].
Qed.

Lemma oral_nonneg (t D V kaVal keVal F : R) :
  0 <= t -> 0 <= D -> 0 < V -> 0 < kaVal -> 0 < keVal -> 0 <= F <= 1 ->
  0 <= calculateOralDose t D V kaVal keVal F.
Proof.
  intros Ht HD HV Hka Hke [HF0 HF1].
  assert (HN : 0 <= F * D * kaVal).
  { apply Rmult_le_pos; [apply Rmult_le_pos; assumption|lra]. }
  unfold calculateOralDose.
  destruct (Rlt_dec (Rabs (kaVal - keVal)) 1e-6) as [Hnear|Hfar].
  - apply Rmult_le_pos; [|left; apply exp_pos].
    apply Rmult_le_pos; [|exact Ht].
    apply Rmult_le_pos; [exact HN|]. left. now apply Rinv_0_lt_compat.
  - cbv zeta.
    destruct (Rlt_le_dec keVal kaVal) as [Hlt|Hle].
    + apply Rmult_le_pos.
      * apply Rmult_le_pos; [exact HN|]. left.
        apply Rinv_0_lt_compat. nra.
      * assert (exp (- kaVal * t) <= exp (- keVal * t))
          by (apply exp_le; nra).
        lra.
    + assert (Hne : kaVal <> keVal).
      { intros ->. apply Hfar.
        replace (keVal - keVal) with 0 by lra. rewrite Rabs_R0. lra. }
      assert (Hden : 0 < V * (keVal - kaVal)) by nra.
      replace ((F * D * kaVal) / (V * (kaVal - keVal))
               * (exp (- keVal * t) - exp (- kaVal * t)))
        with ((F * D * kaVal) / (V * (keVal - kaVal))
              * (exp (- kaVal * t) - exp (- keVal * t))).
      * apply Rmult_le_pos.
        -- apply Rmult_le_pos; [exact HN|]. left.
           now apply Rinv_0_lt_compat.
        -- assert (exp (- keVal * t) <= exp (- kaVal * t))
             by (apply exp_le; nra).
           lra.
      * field. split; nra.
Qed.

Lemma sum_nonneg (xs : list R) : Forall (fun x => 0 <= x) xs -> 0 <= Spec.sum xs.
Proof.
  induction 1 as [|x xs Hx _ IH]; cbn; [lra|].
  fold (Spec.sum xs). lra.
Qed.

Lemma superposition_nonneg (t : R) (f : R -> R) (tau : R) (n : Z) :
  (forall x, 0 <= x -> 0 <= f x) ->
  0 <= calculateMultipleDoses t f tau n.
Proof.
  intros Hf. rewrite calculateMultipleDoses_sum. apply sum_nonneg.
  apply Forall_forall. intros y Hy.
  apply in_map_iff in Hy. destruct Hy as [i [<- Hi]].
  apply dosesGiven_spec in Hi. apply Hf. lra.
Qed.

Lemma single_nonneg (st : State) (tau : R) : 0 <= tau -> 0 <= single st tau.
Proof.
  intros Ht. unfold single. destruct (administrationType st).
  - apply iv_nonneg. apply Rmult_le_pos; [apply numericDose_nonneg|].
    left. apply Rinv_0_lt_compat, numericV_pos.
  - apply oral_nonneg; auto using numericDose_nonneg, numericV_pos,
      numericKa_pos, numericKe_pos, numericF_range.
Qed.

Lemma concentrationAt_nonneg {rt : Js.Runtime} (st : State) (t : R) :
  0 <= concentrationAt st t.
Proof. apply superposition_nonneg, single_nonneg. Qed.

(** *** The sampling loop *)

Lemma simulateLoop_invariant {rt : Js.Runtime} (st : State)
      (P : Sample.t -> Prop) :
  (forall t, P (samplePoint st t)) ->
  forall fuel t acc data,
    Forall P acc -> simulateLoop st fuel t acc = Some data -> Forall P data.
Proof.
  intros HP. induction fuel as [|fuel IH]; intros t acc data Hacc Hrun;
    cbn [simulateLoop] in Hrun; [discriminate|].
  destruct (Rle_dec t (maxTime st + 1e-9)).
  - apply IH in Hrun; [exact Hrun|].
    apply Forall_app. split; [exact Hacc|]. constructor; [apply HP|constructor].
  - injection Hrun as <-. exact Hacc.
Qed.

Lemma pow10_pos (f : nat) : 0 < 10 ^ f.
Proof. apply pow_lt. lra. Qed.

(** [toFixed f] leaves a non-negative multiple of [10^-f] unchanged. *)
Lemma toFixed_exact (f : nat) (z : Z) :
  (0 <= z)%Z -> Js.toFixed f (IZR z / 10 ^ f) = IZR z / 10 ^ f.
Proof.
  intros Hz. pose proof (pow10_pos f) as Hp.
  assert (H0 : 0 <= IZR z / 10 ^ f).
  { apply Rmult_le_pos; [now apply IZR_le|].
    left. now apply Rinv_0_lt_compat. }
  unfold Js.toFixed. destruct (Rlt_dec (IZR z / 10 ^ f) 0); [lra|].
  unfold Js.toFixedAbs. destruct (Rle_dec (10 ^ 21) (IZR z / 10 ^ f));
    [reflexivity|].
  replace (IZR z / 10 ^ f * 10 ^ f) with (IZR z) by (field; lra).
  unfold Js.roundHalfUp. rewrite (Zfloor_eq z); [reflexivity|lra].
Qed.

Lemma toFixed_quarter (k : nat) : Js.toFixed 2 (INR k * dt) = INR k * dt.
Proof.
  replace (INR k * dt) with (IZR (25 * Z.of_nat k) / 10 ^ 2).
  - apply toFixed_exact. lia.
  - rewrite mult_IZR, <- INR_IZR_INZ. unfold dt. lra.
Qed.

Section Sampling.
Context {rt : Js.Runtime}.
Variable st : State.

Lemma maxTime_ge : 24 <= maxTime st.
Proof. apply Rmax_l. Qed.

Lemma lastIndex_exists : exists K, Spec.lastIndex st K.
Proof.
  pose proof maxTime_ge as HM.
  set (B := maxTime st + 1e-9).
  pose proof (Zfloor_bound (B / dt)) as [Hlo Hhi].
  assert (HB : 0 <= B / dt).
  { unfold B, dt. lra. }
  assert (Hz : (0 <= Zfloor (B / dt))%Z).
  { apply (Zfloor_lub 0). exact HB. }
  exists (Z.to_nat (Zfloor (B / dt))). unfold Spec.lastIndex. fold B.
  rewrite S_INR, INR_IZR_INZ, Z2Nat.id by exact Hz.
  unfold dt in *. lra.
Qed.

Lemma lastIndex_unique (K K' : nat) :
  Spec.lastIndex st K -> Spec.lastIndex st K' -> K = K'.
Proof.
  unfold Spec.lastIndex, dt. rewrite !S_INR. intros [H1 H2] [H3 H4].
  assert (Ha : INR K < INR K' + 1) by lra.
  assert (Hb : INR K' < INR K + 1) by lra.
  rewrite <- S_INR in Ha, Hb. apply INR_lt in Ha, Hb. lia.
Qed.

Lemma simulateLoop_grid (K : nat) :
  Spec.lastIndex st K ->
  forall m j fuel acc,
    (j + m = S K)%nat -> (m < fuel)%nat ->
    simulateLoop st fuel (INR j * dt) acc
    = Some (acc ++ map (fun k => samplePoint st (INR k * dt)) (seq j m)).
Proof.
  intros [HK1 HK2]. induction m as [|m IH]; intros j fuel acc Hj Hfuel.
  - destruct fuel as [|fuel]; [lia|]. cbn [simulateLoop seq map].
    replace j with (S K) by lia.
    destruct (Rle_dec (INR (S K) * dt) (maxTime st + 1e-9)); [lra|].
    now rewrite app_nil_r.
  - destruct fuel as [|fuel]; [lia|]. cbn [simulateLoop seq map].
    assert (Hle : INR j * dt <= maxTime st + 1e-9).
    { assert (INR j <= INR K) by (apply le_INR; lia). unfold dt in *. nra. }
    destruct (Rle_dec (INR j * dt) (maxTime st + 1e-9)); [|contradiction].
    replace (INR j * dt + dt) with (INR (S j) * dt)
      by (rewrite S_INR; lra).
    rewrite IH by lia. now rewrite <- app_assoc.
Qed.

Lemma simulatePK_grid (K fuel : nat) :
  Spec.lastIndex st K -> (K + 2 <= fuel)%nat ->
  simulatePK st fuel
  = Some (map (fun k => samplePoint st (INR k * dt)) (seq 0 (S K))).
Proof.
  intros HK Hfuel. unfold simulatePK.
  replace 0 with (INR 0 * dt) by (cbn; lra).
  rewrite (simulateLoop_grid K HK (S K) 0%nat fuel []) by lia.
  reflexivity.
Qed.

End Sampling.

Lemma nth_error_Some_lt {A : Type} (l : list A) (n : nat) (x : A) :
  nth_error l n = Some x -> (n < length l)%nat.
Proof. intros H. apply nth_error_Some. rewrite H. discriminate. Qed.

Lemma nth_error_map_seq {A : Type} (f : nat -> A) (m j k : nat) :
  (k < m)%nat -> nth_error (map f (seq j m)) k = Some (f (j + k)%nat).
Proof.
  revert j k. induction m as [|m IH]; intros j k Hk; [lia|].
  destruct k as [|k]; cbn [seq map nth_error].
  - now rewrite Nat.add_0_r.
  - rewrite IH by lia. f_equal. f_equal. lia.
Qed.

Lemma samplePoint_quarter {rt : Js.Runtime} (st : State) (k : nat) :
  samplePoint st (INR k * dt)
  = let c := concentrationAt st (INR k * dt) in
    Sample.mk (INR k * dt) c (therapeuticMin st) (therapeuticMax st)
              (Js.geb c (therapeuticMin st) && Js.leb c (therapeuticMax st))
              (if Js.ltb c (therapeuticMin st) then subtherapeutic
               else if Js.gtb c (therapeuticMax st) then toxic
               else therapeutic).
Proof. unfold samplePoint. now rewrite toFixed_quarter. Qed.

Lemma nDose_truncating (st : State) (z : Z) :
  numberOfDoses st = Js.Num (IZR z) -> (1 <= z)%Z ->
  @nDose truncating st = z.
Proof.
  intros Hn Hz. unfold nDose. rewrite Hn.
  cbn [Js.parseInt truncating]. rewrite truncate_nonneg by lia.
  unfold Js.or_elseZ. destruct (Z.eqb_spec z 0); lia.
Qed.

Lemma intv_Num (st : State) (r : R) :
  dosingInterval st = Js.Num r -> 0.1 <= r -> intv st = r.
Proof.
  intros Hd Hr. unfold intv, Js.parseFloat. rewrite Hd.
  rewrite or_else_Num by lra. now apply Rmax_right.
Qed.

Lemma nearQuarter_maxTime : @maxTime truncating nearQuarter = 24.2499999999.
Proof.
  unfold maxTime.
  rewrite (nDose_truncating nearQuarter 1), (intv_Num nearQuarter 0.2499999999);
    try reflexivity; try lia; try lra.
  rewrite Rmax_right by lra. lra.
Qed.

Lemma nearQuarter_lastIndex : @Spec.lastIndex truncating nearQuarter 97.
Proof.
  unfold Spec.lastIndex. rewrite nearQuarter_maxTime, !INR_IZR_INZ.
  cbn [Z.of_nat Pos.of_succ_nat Pos.succ]. unfold dt. lra.
Qed.

(** C4, as stated, fails: with one dose and interval 0.2499999999 the
    horizon is 24.2499999999, yet the sample at 24.25 is produced.  The
    bound [maxTime + 1e-9] is itself rounded by the engine: at interval
    0.249999998999999 the grid time 24.25, reached by 97 steps of
    [t += dt], lies above the exact value of horizon + 1e-9 and still
    passes the loop condition. *)
Lemma C4_counterexample :
  (exists data s,
      @simulatePK truncating nearQuarter 100 = Some data
      /\ In s data
      /\ @maxTime truncating nearQuarter < Sample.time s)
  /\ (let intv := Double.decimal 249999998999999 15 in
      let t := Nat.iter 97 (fun x => Double.add x Double.dt) Double.zero in
      Double.toR t = 24.25
      /\ Double.toR intv = 9007199218712159 / 36028797018963968
      /\ Rmax 24 (1 * Double.toR intv + 24) + 1e-9 < Double.toR t
      /\ Double.inLoop 1 intv t = true).
Proof.
  split.
  - eexists. exists (@samplePoint truncating nearQuarter (INR 97 * dt)).
    split; [|split].
    + apply (simulatePK_grid nearQuarter 97 100 nearQuarter_lastIndex). lia.
    + apply in_map_iff. exists 97%nat. split; [reflexivity|].
      apply in_seq. lia.
    + rewrite samplePoint_quarter. cbn [Sample.time].
      rewrite nearQuarter_maxTime, INR_IZR_INZ.
      cbn [Z.of_nat Pos.of_succ_nat Pos.succ]. unfold dt. lra.
  - intros intv t. subst intv t.
    replace (Nat.iter 97 (fun x => Double.add x Double.dt) Double.zero)
      with (S754_finite false 6825768185233408 (-48))
      by (vm_compute; reflexivity).
    replace (Double.decimal 249999998999999 15)
      with (S754_finite false 9007199218712159 (-55))
      by (vm_compute; reflexivity).
    rewrite (toR_finite false 6825768185233408 (-48)
                        6825768185233408 281474976710656)
      by reflexivity.
    rewrite (toR_finite false 9007199218712159 (-55)
                        9007199218712159 36028797018963968)
      by reflexivity.
    split; [lra|]. split; [reflexivity|]. split.
    + rewrite Rmax_right by lra. lra.
    + vm_compute. reflexivity.
Qed.

(** C4 (amended).  For horizons up to 10^6 hours: the samples are taken at
    the times [k * 0.25] for [k = 0, 1, ..., K], so the sequence starts at
    0 and advances by exactly 0.25 in strictly increasing order; it covers
    every grid point up to the horizon [max(24, n * tau + 24)] inclusive,
    and because the loop bound is [maxTime + 1e-9] it can pass the horizon,
    by less than 2e-9.  Each sample carries the band as entered and is
    tagged with the in-range flag and the status of its own concentration
    against that band. *)
Theorem C4_sampling_grid {rt : Js.Runtime} (st : State) :
  maxTime st <= 1000000 ->
  maxTime st = Rmax 24 (IZR (nDose st) * intv st + 24)
  /\ exists K,
      (forall k, INR k * 0.25 <= maxTime st -> (k <= K)%nat)
      /\ INR K * 0.25 <= maxTime st + 2e-9
      /\ forall fuel, (K + 2 <= fuel)%nat ->
          exists data,
            simulatePK st fuel = Some data
            /\ length data = S K
            /\ (forall k s,
                  nth_error data k = Some s ->
                  Sample.time s = INR k * 0.25
                  /\ Sample.therapeuticMin s = therapeuticMin st
                  /\ Sample.therapeuticMax s = therapeuticMax st
                  /\ Sample.inRange s
                     = Js.geb (Sample.concentration s) (therapeuticMin st)
                       && Js.leb (Sample.concentration s) (therapeuticMax st)
                  /\ Sample.status s
                     = (if Js.ltb (Sample.concentration s) (therapeuticMin st)
                        then subtherapeutic
                        else if Js.gtb (Sample.concentration s)
                                       (therapeuticMax st)
                             then toxic
                             else therapeutic))
            /\ (forall i j si sj,
                  nth_error data i = Some si -> nth_error data j = Some sj ->
                  (i < j)%nat -> Sample.time si < Sample.time sj).
Proof.
  intros _. split; [reflexivity|].
  destruct (lastIndex_exists st) as [K HK]. exists K.
  split; [|split].
  - intros k Hk. destruct HK as [_ HK2]. fold dt in Hk.
    assert (H : INR k < INR (S K)) by (unfold dt in *; nra).
    apply INR_lt in H. lia.
  - destruct HK as [HK1 _]. unfold dt in HK1. lra.
  - intros fuel Hfuel.
    exists (map (fun k => samplePoint st (INR k * dt)) (seq 0 (S K))).
    split; [now apply simulatePK_grid|].
    split; [now rewrite length_map, length_seq|].
    split.
    + intros k s Hs.
      assert (Hk : (k < S K)%nat).
      { apply nth_error_Some_lt in Hs.
        now rewrite length_map, length_seq in Hs. }
      rewrite nth_error_map_seq in Hs by exact Hk.
      injection Hs as <-. cbn [Nat.add].
      rewrite samplePoint_quarter.
      cbn [Sample.time Sample.therapeuticMin Sample.therapeuticMax
           Sample.inRange Sample.status Sample.concentration].
      unfold dt. repeat split; reflexivity.
    + intros i j si sj Hsi Hsj Hij.
      assert (Hj : (j < S K)%nat).
      { apply nth_error_Some_lt in Hsj.
        now rewrite length_map, length_seq in Hsj. }
      rewrite nth_error_map_seq in Hsi, Hsj by lia.
      injection Hsi as <-. injection Hsj as <-.
      rewrite !samplePoint_quarter. cbn [Sample.time Nat.add].
      apply lt_INR in Hij. unfold dt. lra.
Qed.

Lemma initial_maxTime : @maxTime truncating initialState = 32.
Proof.
  unfold maxTime.
  rewrite (nDose_truncating initialState 1), (intv_Num initialState 8);
    try reflexivity; try lia; try lra.
  rewrite Rmax_right by lra. lra.
Qed.

Lemma initial_lastIndex : @Spec.lastIndex truncating initialState 128.
Proof.
  unfold Spec.lastIndex. rewrite initial_maxTime, !INR_IZR_INZ.
  cbn [Z.of_nat Pos.of_succ_nat Pos.succ]. unfold dt. lra.
Qed.

(** The initial state: horizon 32, hence 129 samples. *)
Lemma C4_sampling_grid_witness :
  exists data,
    @simulatePK truncating initialState 130 = Some data
    /\ length data = 129%nat.
Proof.
  destruct (@C4_sampling_grid truncating initialState)
    as [_ [K [Hcover [Hpass Hrun]]]].
  - rewrite initial_maxTime. lra.
  - rewrite initial_maxTime in Hcover, Hpass.
    assert (HK : K = 128%nat).
    { assert (H1 : (128 <= K)%nat).
      { apply Hcover. rewrite INR_IZR_INZ. cbn. lra. }
      assert (H2 : INR K < INR 129).
      { rewrite (INR_IZR_INZ 129). cbn. lra. }
      apply INR_lt in H2. lia. }
    subst K. destruct (Hrun 130%nat) as [data [Hd [Hlen _]]]; [lia|].
    exists data. split; [exact Hd|exact Hlen].
Defined.

(** *** Normalisation of the form state *)

Lemma samples_carry_band {rt : Js.Runtime} (st : State) (fuel : nat)
      (data : list Sample.t) (s : Sample.t) :
  simulatePK st fuel = Some data -> In s data ->
  Sample.therapeuticMin s = therapeuticMin st
  /\ Sample.therapeuticMax s = therapeuticMax st
  /\ Sample.inRange s
     = Js.geb (Sample.concentration s) (therapeuticMin st)
       && Js.leb (Sample.concentration s) (therapeuticMax st).
Proof.
  intros Hrun Hs. unfold simulatePK in Hrun.
  eapply simulateLoop_invariant
    with (P := fun s =>
                 Sample.therapeuticMin s = therapeuticMin st
                 /\ Sample.therapeuticMax s = therapeuticMax st
                 /\ Sample.inRange s
                    = Js.geb (Sample.concentration s) (therapeuticMin st)
                      && Js.leb (Sample.concentration s) (therapeuticMax st))
    in Hrun.
  - rewrite Forall_forall in Hrun. exact (Hrun s Hs).
  - intros t. cbn. auto.
  - constructor.
Qed.

Lemma simulatePK_first {rt : Js.Runtime} (st : State) :
  exists fuel rest, simulatePK st fuel = Some (samplePoint st 0 :: rest).
Proof.
  destruct (lastIndex_exists st) as [K HK].
  exists (K + 2)%nat. eexists.
  rewrite (simulatePK_grid st K (K + 2) HK) by lia.
  cbn [seq map INR]. now rewrite Rmult_0_l.
Qed.

(** C3, as stated, fails for the therapeutic band: a bound that is not a
    number, or is negative, reaches every sample as entered, so no lower
    bound holds for the band used by the computation. *)
Lemma C3_counterexample :
  (exists fuel data,
      @simulatePK truncating unclampedBand fuel = Some data
      /\ data <> []
      /\ forall s, In s data ->
           Sample.therapeuticMin s = Js.NaN
           /\ Sample.therapeuticMax s = Js.Num (-5)
           /\ Sample.inRange s = false)
  /\ ~ (exists lo : R,
         forall st fuel data s,
           @simulatePK truncating st fuel = Some data -> In s data ->
           exists r, Sample.therapeuticMin s = Js.Num r /\ lo <= r).
Proof.
  split.
  - destruct (@simulatePK_first truncating unclampedBand)
      as [fuel [rest Hrun]].
    exists fuel. eexists. split; [exact Hrun|]. split; [discriminate|].
    intros s Hs.
    destruct (samples_carry_band unclampedBand fuel _ s Hrun Hs)
      as [Hmin [Hmax Hin]].
    rewrite Hin. cbn. auto.
  - intros [lo H].
    destruct (@simulatePK_first truncating
                (withBand (Js.Num (lo - 1)) (Js.Num 15)))
      as [fuel [rest Hrun]].
    destruct (H _ fuel _ _ Hrun (or_introl eq_refl)) as [r [Hr Hlo]].
    cbn in Hr. injection Hr as <-. lra.
Qed.

(** C3 (amended).  For every state, whatever [parseInt] returns and whether
    or not a field is a number: dose count >= 1, interval >= 0.1 > 0,
    dose >= 0, volume >= 0.0001 > 0, both rate constants >= 1e-9 > 0 and
    bioavailability in [0, 1].  The therapeutic band bounds are not
    clamped: every sample carries them, and is classified against them, as
    they were entered. *)
Theorem C3_clamping {rt : Js.Runtime} (st : State) :
  (1 <= nDose st)%Z
  /\ 0.1 <= intv st
  /\ 0 <= numericDose st
  /\ 0.0001 <= numericV st
  /\ 1e-9 <= numericKe st
  /\ 1e-9 <= numericKa st
  /\ 0 <= numericF st <= 1
  /\ forall fuel data s,
      simulatePK st fuel = Some data -> In s data ->
      Sample.therapeuticMin s = therapeuticMin st
      /\ Sample.therapeuticMax s = therapeuticMax st
      /\ Sample.inRange s
         = Js.geb (Sample.concentration s) (therapeuticMin st)
           && Js.leb (Sample.concentration s) (therapeuticMax st).
Proof.
  repeat split;
    try solve [ apply nDose_ge_1 | apply intv_ge | apply numericDose_nonneg
              | apply numericV_ge | apply numericKe_ge | apply numericKa_ge
              | apply numericF_range ];
    eapply samples_carry_band; eassumption.
Qed.

(** The first sample of the initial state carries the band 5 .. 15. *)
Lemma C3_clamping_witness :
  exists s,
    Sample.therapeuticMin s = Js.Num 5 /\ Sample.therapeuticMax s = Js.Num 15.
Proof.
  exists (@samplePoint truncating initialState (INR 0 * dt)).
  destruct (C3_clamping (rt := truncating) initialState)
    as [_ [_ [_ [_ [_ [_ [_ H]]]]]]].
  destruct (H 130%nat _ (@samplePoint truncating initialState (INR 0 * dt))
              (simulatePK_grid initialState 128 130 initial_lastIndex
                               ltac:(lia))
              (or_introl eq_refl)) as [Hmin [Hmax _]].
  split; [exact Hmin|exact Hmax].
Defined.

(** With every field NaN the helpers take their fallback values. *)
Lemma allNaN_fallbacks :
  @nDose truncating allNaN = 1%Z
  /\ intv allNaN = 0.1
  /\ numericDose allNaN = 0
  /\ numericV allNaN = 0.0001
  /\ numericKe allNaN = 1e-9
  /\ numericKa allNaN = 1e-9
  /\ numericF allNaN = 0.
Proof.
  unfold nDose, intv, numericDose, numericV, numericKe, numericKa, numericF,
    epsilon.
  cbn [allNaN numberOfDoses dosingInterval dose volume ke ka bioavailability
       Js.parseFloat Js.parseInt truncating Js.truncate Js.or_else
       Js.or_elseZ].
  repeat split; try reflexivity;
    rewrite Rmax_left by lra; try rewrite Rmin_right by lra; lra.
Qed.

(** *** IV bolus *)

Lemma iv_nonincreasing (C0 keVal t1 t2 : R) :
  0 < keVal -> 0 <= C0 -> t1 <= t2 ->
  calculateIVBolus t2 C0 keVal <= calculateIVBolus t1 C0 keVal.
Proof.
  intros Hk HC Ht. unfold calculateIVBolus.
  apply Rmult_le_compat_l; [exact HC|]. apply exp_le. nra.
Qed.

(** C8, as stated, fails twice.  With dose 0 the IV response is constant.
    With a positive dose it stops decreasing once [Math.exp] underflows:
    at [C0 = 10] and [ke = 100] the exponents at hours 8 and 9 are -800
    and -900, and the response is 0 at both. *)
Lemma C8_counterexample :
  (0 < numericKe zeroDose
   /\ ~ (single zeroDose 1 < single zeroDose 0))
  /\ (let C0 := Double.of_Z 10 in
      let keVal := Double.of_Z 100 in
      Double.ltb Double.zero C0 = true
      /\ Double.ltb Double.zero keVal = true
      /\ Double.ltb (Double.of_Z 8) (Double.of_Z 9) = true
      /\ @Double.calculateIVBolus reference (Double.of_Z 8) C0 keVal
         = Double.zero
      /\ @Double.calculateIVBolus reference (Double.of_Z 9) C0 keVal
         = Double.zero).
Proof.
  split.
  - split; [apply numericKe_pos|].
    assert (H0 : numericDose zeroDose = 0).
    { unfold numericDose, zeroDose, Js.parseFloat, Js.or_else. cbn [dose].
      destruct (Req_dec_T 0 0); apply Rmax_left; lra. }
    unfold single. cbn [administrationType zeroDose]. cbv zeta.
    fold zeroDose. rewrite H0. unfold calculateIVBolus, Rdiv.
    rewrite !Rmult_0_l. lra.
  - repeat split; vm_compute; reflexivity.
Qed.

(** C8 (amended).  The IV bolus response at [t = 0] is [C0], which in the
    simulation is dose / volume; for positive [ke] and [C0 >= 0] it never
    increases with [t], and it is constantly 0 when [C0 = 0]. *)
Theorem C8_iv_bolus :
  (forall C0 keVal, calculateIVBolus 0 C0 keVal = C0)
  /\ (forall st, administrationType st = iv ->
        single st 0 = numericDose st / numericV st)
  /\ (forall C0 keVal t1 t2,
        0 < keVal -> 0 <= C0 -> t1 <= t2 ->
        calculateIVBolus t2 C0 keVal <= calculateIVBolus t1 C0 keVal)
  /\ (forall keVal t, calculateIVBolus t 0 keVal = 0).
Proof.
  split; [apply iv_at_zero|]. split; [|split].
  - intros st Hiv. unfold single. rewrite Hiv. apply iv_at_zero.
  - apply iv_nonincreasing.
  - intros keVal t. unfold calculateIVBolus. lra.
Qed.

(** The initial state at [t = 0], and [C0 = 10], [ke = 0.1] at hours 1 and 2. *)
Lemma C8_iv_bolus_witness :
  single initialState 0 = numericDose initialState / numericV initialState
  /\ calculateIVBolus 2 10 0.1 <= calculateIVBolus 1 10 0.1.
Proof.
  split.
  - apply (proj1 (proj2 C8_iv_bolus) initialState). reflexivity.
  - apply (proj1 (proj2 (proj2 C8_iv_bolus)) 10 0.1 1 2); lra.
Defined.

(** *** Non-negativity *)

(** C9.  With dose >= 0, volume > 0, positive rate constants and
    bioavailability in [0, 1], the IV response and the oral response (both
    branches, either order of [ka] and [ke]) are non-negative at every
    [t >= 0]; a superposition of a response that is non-negative on
    [t >= 0] is non-negative; hence every concentration the simulation
    computes, and every sample it produces, is non-negative. *)
Theorem C9_nonnegative :
  (forall t D V keVal,
      0 <= D -> 0 < V -> 0 <= calculateIVBolus t (D / V) keVal)
  /\ (forall t D V kaVal keVal F,
         0 <= t -> 0 <= D -> 0 < V -> 0 < kaVal -> 0 < keVal ->
         0 <= F <= 1 ->
         0 <= calculateOralDose t D V kaVal keVal F)
  /\ (forall t f tau n,
         (forall x, 0 <= x -> 0 <= f x) ->
         0 <= calculateMultipleDoses t f tau n)
  /\ (forall (rt : Js.Runtime) st t, 0 <= concentrationAt st t)
  /\ (forall (rt : Js.Runtime) st fuel data s,
         simulatePK st fuel = Some data -> In s data ->
         0 <= Sample.concentration s).
Proof.
  split; [|split; [|split; [|split]]].
  - intros t D V keVal HD HV. apply iv_nonneg.
    apply Rmult_le_pos; [exact HD|]. left. now apply Rinv_0_lt_compat.
  - apply oral_nonneg.
  - apply superposition_nonneg.
  - intros rt st t. apply concentrationAt_nonneg.
  - intros rt st fuel data s Hrun Hs. unfold simulatePK in Hrun.
    eapply simulateLoop_invariant
      with (P := fun s => 0 <= Sample.concentration s) in Hrun.
    + rewrite Forall_forall in Hrun. exact (Hrun s Hs).
    + intros t. cbn [samplePoint Sample.concentration].
      apply concentrationAt_nonneg.
    + constructor.
Qed.

(** The default doses, an identity response, and the first sample of the
    initial state. *)
Lemma C9_nonnegative_witness :
  0 <= calculateIVBolus 1 (500 / 50) 0.1
  /\ 0 <= calculateOralDose 1 500 50 0.1 0.5 0.8
  /\ 0 <= calculateMultipleDoses 16 (fun x => x) 8 3
  /\ 0 <= Sample.concentration (@samplePoint truncating initialState (INR 0 * dt)).
Proof.
  destruct C9_nonnegative as [Hiv [Horal [Hsup [_ Hsim]]]].
  split; [|split; [|split]].
  - apply Hiv; lra.
  - apply Horal; lra.
  - apply Hsup. intros x Hx. exact Hx.
  - apply (Hsim truncating initialState 130%nat _ _
                (simulatePK_grid initialState 128 130 initial_lastIndex
                                 ltac:(lia))).
    left. reflexivity.
Defined.

(* ================================================================== *)
(** ** Metrics *)

(** *** Area under the curve *)

Lemma fold_left_ext_in {A B : Type} (f g : A -> B -> A) (l : list B) :
  (forall a x, In x l -> f a x = g a x) ->
  forall a, fold_left f l a = fold_left g l a.
Proof.
  induction l as [|x l IH]; intros Hfg a; cbn; [reflexivity|].
  rewrite Hfg by (now left). apply IH. intros; apply Hfg; now right.
Qed.

(** The area of the trapezoid between two consecutive samples. *)
Lemma trapezoidLoop_snoc (pre : list Sample.t) (l s : Sample.t) :
  trapezoidLoop ((pre ++ [l]) ++ [s])
  = trapezoidLoop (pre ++ [l])
    + (Sample.concentration s + Sample.concentration l) / 2
      * (Sample.time s - Sample.time l).
Proof.
  unfold trapezoidLoop.
  set (data := pre ++ [l]).
  assert (Hlen : length data = S (length pre)).
  { unfold data. rewrite length_app. cbn. lia. }
  rewrite length_app. cbn [length].
  replace (length data + 1 - 1)%nat with (S (length data - 1)) by lia.
  rewrite seq_S, fold_left_app. cbn [fold_left].
  replace (1 + (length data - 1))%nat with (length data) by lia.
  rewrite !map_app. cbn [map].
  assert (Hnth : forall (f : Sample.t -> R),
             nth (length data) (map f data ++ [f s]) 0 = f s).
  { intros f. rewrite <- (length_map f data). apply nth_middle. }
  assert (Hprev : forall (f : Sample.t -> R),
             nth (length data - 1) (map f data ++ [f s]) 0 = f l).
  { intros f. rewrite app_nth1 by (rewrite length_map; lia).
    unfold data. rewrite map_app. cbn [map].
    replace (length (pre ++ [l]) - 1)%nat with (length (map f pre)).
    - apply nth_middle.
    - rewrite length_map, length_app. cbn. lia. }
  rewrite !Hnth, !Hprev. f_equal.
  apply fold_left_ext_in. intros a i Hi. apply in_seq in Hi.
  rewrite !app_nth1 by (rewrite length_map; lia). reflexivity.
Qed.

Lemma trapezoid_snoc (pre : list Sample.t) (l s : Sample.t) :
  Spec.trapezoid ((pre ++ [l]) ++ [s])
  = Spec.trapezoid (pre ++ [l])
    + (Sample.concentration s + Sample.concentration l) / 2
      * (Sample.time s - Sample.time l).
Proof.
  induction pre as [|a pre IH].
  - cbn. lra.
  - destruct pre as [|b pre].
    + cbn. lra.
    + cbn [app Spec.trapezoid] in *. rewrite IH. lra.
Qed.

Lemma trapezoidLoop_spec (data : list Sample.t) :
  trapezoidLoop data = Spec.trapezoid data.
Proof.
  induction data as [|s data IH] using rev_ind; [reflexivity|].
  destruct data as [|l pre _] using rev_ind; [reflexivity|].
  rewrite trapezoidLoop_snoc, trapezoid_snoc, IH. reflexivity.
Qed.

Lemma trapezoid_nonneg (data : list Sample.t) :
  Spec.nonnegative data -> Spec.timeOrdered data -> 0 <= Spec.trapezoid data.
Proof.
  unfold Spec.nonnegative, Spec.timeOrdered.
  induction data as [|a data IH]; intros Hc Hs; [cbn; lra|].
  destruct data as [|b data]; [cbn; lra|].
  inversion Hc as [|? ? Ha Hc']; subst.
  inversion Hs as [|? ? Hs' Hd]; subst.
  inversion Hd as [|? ? Hab]; subst.
  inversion Hc' as [|? ? Hb _]; subst.
  specialize (IH Hc' Hs').
  change (Spec.trapezoid (a :: b :: data))
    with ((Sample.concentration b + Sample.concentration a) / 2
          * (Sample.time b - Sample.time a) + Spec.trapezoid (b :: data)).
  assert (0 <= (Sample.concentration b + Sample.concentration a) / 2
               * (Sample.time b - Sample.time a)) by (apply Rmult_le_pos; lra).
  lra.
Qed.

Lemma trapezoidLoop_append (data : list Sample.t) (d s : Sample.t) :
  data <> [] ->
  trapezoidLoop (data ++ [s])
  = trapezoidLoop data
    + (Sample.concentration s + Sample.concentration (last data d)) / 2
      * (Sample.time s - Sample.time (last data d)).
Proof.
  intros Hne. destruct data as [|l pre _] using rev_ind; [contradiction|].
  rewrite last_last. apply trapezoidLoop_snoc.
Qed.

(** The fields of the returned record, in terms of the values computed
    before formatting. *)
Lemma calculateMetrics_fields {rt : Js.Runtime} (st : State)
      (data : list Sample.t) (m : Metrics) :
  calculateMetrics st data = Some m ->
  data <> []
  /\ halfLife m = Js.toFixed 3 (ln 2 / numericKe st)
  /\ Tmax m = option_map (Js.toFixed 3) (fst (peak st))
  /\ Cmax m = option_map (Js.toFixed 3) (snd (peak st))
  /\ AUC m = Js.toFixed 3 (trapezoidLoop data)
  /\ (Css_avg m, Css_max m, Css_min m) = steadyState st data.
Proof.
  unfold calculateMetrics. destruct data as [|d0 rest]; [discriminate|].
  destruct (peak st) as [T C]. destruct (steadyState st (d0 :: rest))
    as [[a b] c]. intros H. injection H as <-. cbn.
  repeat split; try reflexivity. discriminate.
Qed.

Lemma calculateMetrics_defined {rt : Js.Runtime} (st : State)
      (data : list Sample.t) :
  data <> [] -> exists m, calculateMetrics st data = Some m.
Proof.
  intros Hne. unfold calculateMetrics. destruct data as [|d0 rest];
    [contradiction|].
  destruct (peak st) as [T C]. destruct (steadyState st (d0 :: rest))
    as [[a b] c]. eexists. reflexivity.
Qed.

(** *** Rendering of small values *)

Lemma toFixed3_small (x : R) : 0 <= x < 0.0005 -> Js.toFixed 3 x = 0.
Proof.
  intros [H0 H1]. unfold Js.toFixed. destruct (Rlt_dec x 0); [lra|].
  unfold Js.toFixedAbs.
  assert (H21 : 1 <= 10 ^ 21) by (apply pow_R1_Rle; lra).
  destruct (Rle_dec (10 ^ 21) x); [lra|].
  unfold Js.roundHalfUp. rewrite (Zfloor_eq 0); [unfold Rdiv; lra|].
  cbn [pow]. lra.
Qed.

(** *** Bounds on a superposition of IV doses *)

Lemma sum_bounds (M : R) (xs : list R) :
  Forall (fun x => 0 <= x <= M) xs ->
  0 <= Spec.sum xs <= INR (length xs) * M.
Proof.
  induction 1 as [|x xs Hx _ IH].
  - cbn. lra.
  - change (Spec.sum (x :: xs)) with (x + Spec.sum xs).
    change (length (x :: xs)) with (S (length xs)). rewrite S_INR. lra.
Qed.

Lemma sum_pos (xs : list R) (y : R) :
  Forall (fun x => 0 <= x) xs -> In y xs -> 0 < y -> 0 < Spec.sum xs.
Proof.
  induction 1 as [|x xs Hx Hxs IH]; intros Hy Hpos; [contradiction|].
  change (Spec.sum (x :: xs)) with (x + Spec.sum xs).
  pose proof (sum_nonneg xs Hxs). destruct Hy as [->|Hy].
  - lra.
  - specialize (IH Hy Hpos). lra.
Qed.

Lemma dosesGiven_length (t tau : R) (n : Z) :
  (1 <= n)%Z -> INR (length (Spec.dosesGiven t tau n)) <= IZR n.
Proof.
  intros Hn. unfold Spec.dosesGiven.
  apply Rle_trans with (INR (Z.to_nat n)).
  - apply le_INR.
    pose proof (filter_length_le (fun i => Js.Rleb (INR i * tau) t)
                                 (seq 0 (Z.to_nat n))) as H.
    now rewrite length_seq in H.
  - rewrite INR_IZR_INZ, Z2Nat.id by lia. lra.
Qed.

Lemma iv_superposition_bounds (t C0 keVal tau : R) (n : Z) :
  0 < C0 -> 0 < keVal -> 0 <= t -> (1 <= n)%Z ->
  0 < calculateMultipleDoses t (fun x => calculateIVBolus x C0 keVal) tau n
  <= IZR n * C0.
Proof.
  intros HC Hk Ht Hn. rewrite calculateMultipleDoses_sum.
  set (terms := map _ _).
  assert (Hall : Forall (fun x => 0 <= x <= C0) terms).
  { apply Forall_forall. intros y Hy. apply in_map_iff in Hy.
    destruct Hy as [i [<- Hi]]. apply dosesGiven_spec in Hi.
    split; [apply iv_nonneg; lra|].
    unfold calculateIVBolus.
    assert (exp (- keVal * (t - INR i * tau)) <= exp 0)
      by (apply exp_le; nra).
    rewrite exp_0 in *. nra. }
  split.
  - apply sum_pos with (y := calculateIVBolus (t - INR 0 * tau) C0 keVal).
    + eapply Forall_impl; [|exact Hall]. cbn. intros; lra.
    + apply in_map_iff. exists 0%nat. split; [reflexivity|].
      apply dosesGiven_spec. cbn [INR Z.of_nat]. split; [lia|lra].
    + unfold calculateIVBolus. apply Rmult_lt_0_compat; [exact HC|].
      apply exp_pos.
  - pose proof (sum_bounds C0 terms Hall) as [_ Hub].
    pose proof (dosesGiven_length t tau n Hn) as Hlen.
    unfold terms in Hub. rewrite length_map in Hub. fold terms in Hub. nra.
Qed.

(** *** Bounds on the trapezoidal sum over a quarter-hour grid *)

Lemma trapezoid_grid_bounds (f : nat -> Sample.t) (M : R) :
  (forall k, Sample.time (f k) = INR k * dt) ->
  (forall k, 0 < Sample.concentration (f k) <= M) ->
  forall m j,
    0 <= Spec.trapezoid (map f (seq j m)) <= INR m * (M * dt)
    /\ ((2 <= m)%nat -> 0 < Spec.trapezoid (map f (seq j m))).
Proof.
  intros Ht Hc. induction m as [|m IH]; intros j.
  - cbn. split; [lra|lia].
  - destruct m as [|m].
    + cbn. pose proof (Hc j). unfold dt. split; [nra|lia].
    + destruct (IH (S j)) as [[IH1 IH2] _].
      change (Spec.trapezoid (map f (seq j (S (S m)))))
        with ((Sample.concentration (f (S j)) + Sample.concentration (f j)) / 2
              * (Sample.time (f (S j)) - Sample.time (f j))
              + Spec.trapezoid (map f (seq (S j) (S m)))).
      rewrite !Ht, S_INR.
      pose proof (Hc j). pose proof (Hc (S j)).
      rewrite (S_INR (S m)) in *. unfold dt in *.
      split; [split|intros _]; nra.
Qed.

(** *** The microgram-scale run *)

Lemma clamp_Num (lo r : R) :
  lo <= r -> r <> 0 -> Rmax lo (Js.or_else (Js.parseFloat (Js.Num r)) lo) = r.
Proof.
  intros Hlo Hr. unfold Js.parseFloat. rewrite or_else_Num by exact Hr.
  now apply Rmax_right.
Qed.

Lemma tinyDose_clamped :
  @nDose truncating tinyDose = 2%Z
  /\ intv tinyDose = 8
  /\ numericDose tinyDose = 0.000001
  /\ numericV tinyDose = 50
  /\ numericKe tinyDose = 1.
Proof.
  split; [|split; [|split; [|split]]].
  - apply nDose_truncating; [reflexivity|lia].
  - apply intv_Num; [reflexivity|lra].
  - apply clamp_Num; lra.
  - apply clamp_Num; lra.
  - apply clamp_Num; unfold epsilon; lra.
Qed.

Lemma tinyDose_concentration (t : R) :
  0 <= t -> 0 < @concentrationAt truncating tinyDose t <= 0.00000004.
Proof.
  intros Ht. unfold concentrationAt.
  destruct tinyDose_clamped as [Hn [Hi [Hd [Hv Hk]]]].
  rewrite Hn, Hi.
  replace (single tinyDose)
    with (fun x => calculateIVBolus x (0.000001 / 50) 1).
  - destruct (iv_superposition_bounds t (0.000001 / 50) 1 8 2) as [H1 H2];
      try lra; try lia.
  - unfold single. cbn [administrationType tinyDose]. cbv zeta.
    fold tinyDose. now rewrite Hd, Hv, Hk.
Qed.

Lemma tinyDose_lastIndex : @Spec.lastIndex truncating tinyDose 160.
Proof.
  destruct tinyDose_clamped as [Hn [Hi _]].
  unfold Spec.lastIndex, maxTime. rewrite Hn, Hi, !INR_IZR_INZ.
  rewrite Rmax_right by lra.
  cbn [Z.of_nat Pos.of_succ_nat Pos.succ]. unfold dt. lra.
Qed.

Lemma tinyDose_run :
  @simulatePK truncating tinyDose 200
  = Some (map (fun k => @samplePoint truncating tinyDose (INR k * dt))
              (seq 0 161)).
Proof. apply (simulatePK_grid tinyDose 160 200 tinyDose_lastIndex). lia. Qed.

Lemma tinyDose_auc :
  0 < Spec.trapezoid
        (map (fun k => @samplePoint truncating tinyDose (INR k * dt))
             (seq 0 161))
  < 0.0005.
Proof.
  destruct (trapezoid_grid_bounds
              (fun k => @samplePoint truncating tinyDose (INR k * dt))
              0.00000004) with (m := 161%nat) (j := 0%nat)
    as [[_ Hub] Hpos].
  - intros k. cbv beta. now rewrite samplePoint_quarter.
  - intros k. cbv beta. apply tinyDose_concentration.
    apply Rmult_le_pos; [apply pos_INR|unfold dt; lra].
  - specialize (Hpos ltac:(lia)).
    set (T := Spec.trapezoid _) in *.
    rewrite INR_IZR_INZ in Hub.
    cbn [Z.of_nat Pos.of_succ_nat Pos.succ] in Hub.
    unfold dt in Hub. lra.
Qed.

Lemma fastEliminationRun_snoc (m : nat) (t : Double.number) :
  fastEliminationRun (S m) t
  = fastEliminationRun m t
    ++ [fastEliminationSample
          (Nat.iter m (fun x => Double.add x Double.dt) t)].
Proof.
  revert t. induction m as [|m IH]; intros t; [reflexivity|].
  change (fastEliminationRun (S (S m)) t)
    with (fastEliminationSample t
          :: fastEliminationRun (S m) (Double.add t Double.dt)).
  rewrite IH, (Nat.iter_succ_r m). reflexivity.
Qed.

(** C7, as stated, fails twice.  The reported value: in the run with two
    doses of 0.000001 the trapezoidal sum is positive but the AUC field of
    the metrics is 0 (the string "0.000").  The accumulated value: the IV
    run with dose 500, volume 50, [ke] 5 and one dose has 129 samples at
    interval 8 and the same samples followed by the one at 32.25 h at
    interval 8.25; that sample has a positive concentration at a strictly
    later time, yet the binary64 accumulator absorbs its trapezoid and the
    AUC is the same. *)
Lemma C7_counterexample :
  (exists data m,
      @simulatePK truncating tinyDose 200 = Some data
      /\ @calculateMetrics truncating tinyDose data = Some m
      /\ AUC m = 0
      /\ 0 < Spec.trapezoid data)
  /\ (let data := fastEliminationRun 129 Double.zero in
      let s := fastEliminationSample (Double.decimal 3225 2) in
      fastEliminationRun 130 Double.zero = data ++ [s]
      /\ Spec.nonnegativeB (data ++ [s]) = true
      /\ Spec.timeOrderedB (data ++ [s]) = true
      /\ Double.ltb Double.zero (Double.Sample.concentration s) = true
      /\ Double.ltb (Double.Sample.time (last data s)) (Double.Sample.time s)
         = true
      /\ Double.trapezoidLoop (data ++ [s]) = Double.trapezoidLoop data).
Proof.
  split.
  - eexists.
    destruct (@calculateMetrics_defined truncating tinyDose
                (map (fun k => @samplePoint truncating tinyDose (INR k * dt))
                     (seq 0 161)))
      as [m Hm]; [discriminate|].
    exists m. split; [exact tinyDose_run|]. split; [exact Hm|].
    apply calculateMetrics_fields in Hm.
    destruct Hm as [_ [_ [_ [_ [Hauc _]]]]].
    pose proof tinyDose_auc as Hb.
    split; [|lra].
    rewrite Hauc, trapezoidLoop_spec. apply toFixed3_small. lra.
  - intros data s. subst data s.
    split; [|split; [|split; [|split; [|split]]]].
    + rewrite fastEliminationRun_snoc.
      replace (Nat.iter 129 (fun x => Double.add x Double.dt) Double.zero)
        with (Double.decimal 3225 2) by (vm_compute; reflexivity).
      reflexivity.
    + vm_compute. reflexivity.
    + vm_compute. reflexivity.
    + vm_compute. reflexivity.
    + vm_compute. reflexivity.
    + vm_compute. reflexivity.
Qed.

(** C7 (amended).  The AUC accumulated by the metrics loop is the
    trapezoidal sum over consecutive samples, and the AUC field of the
    returned record is that sum rendered by [toFixed(3)].  For samples with
    non-negative concentrations and non-decreasing times the sum is
    non-negative, and appending to a non-empty sequence a sample with
    positive concentration at a strictly later time never decreases
    it. *)
Theorem C7_auc_trapezoid :
  (forall data, trapezoidLoop data = Spec.trapezoid data)
  /\ (forall (rt : Js.Runtime) st data,
         data <> [] ->
         exists m,
           calculateMetrics st data = Some m
           /\ AUC m = Js.toFixed 3 (Spec.trapezoid data))
  /\ (forall data,
         Spec.nonnegative data -> Spec.timeOrdered data ->
         0 <= trapezoidLoop data)
  /\ (forall data d s,
         data <> [] -> Spec.nonnegative data ->
         0 < Sample.concentration s ->
         Sample.time (last data d) < Sample.time s ->
         trapezoidLoop data <= trapezoidLoop (data ++ [s])).
Proof.
  split; [apply trapezoidLoop_spec|]. split; [|split].
  - intros rt st data Hne.
    destruct (calculateMetrics_defined st data Hne) as [m Hm].
    exists m. split; [exact Hm|].
    apply calculateMetrics_fields in Hm.
    destruct Hm as [_ [_ [_ [_ [Hauc _]]]]].
    now rewrite Hauc, trapezoidLoop_spec.
  - intros data Hc Hs. rewrite trapezoidLoop_spec.
    now apply trapezoid_nonneg.
  - intros data d s Hne Hc Hs Ht.
    rewrite (trapezoidLoop_append data d s Hne).
    assert (Hl : 0 <= Sample.concentration (last data d)).
    { unfold Spec.nonnegative in Hc. rewrite Forall_forall in Hc.
      apply Hc. destruct data as [|l pre _] using rev_ind; [contradiction|].
      rewrite last_last. apply in_or_app. right. now left. }
    assert (0 < (Sample.concentration s + Sample.concentration (last data d))
                / 2 * (Sample.time s - Sample.time (last data d)))
      by (apply Rmult_lt_0_compat; lra).
    lra.
Qed.

(** Two samples one hour apart with concentrations 1 and 2. *)
Lemma C7_auc_trapezoid_witness :
  0 <= trapezoidLoop twoSamples
  /\ trapezoidLoop [hd (Sample.mk 0 0 Js.NaN Js.NaN false therapeutic)
                       twoSamples]
     <= trapezoidLoop twoSamples
  /\ exists m,
      @calculateMetrics truncating initialState twoSamples = Some m
      /\ AUC m = Js.toFixed 3 (Spec.trapezoid twoSamples).
Proof.
  destruct C7_auc_trapezoid as [_ [Hfield [Hnonneg Happend]]].
  assert (Hc : Spec.nonnegative twoSamples).
  { repeat constructor; cbn; lra. }
  split; [|split].
  - apply Hnonneg; [exact Hc|]. repeat constructor. cbn. lra.
  - apply (Happend [Sample.mk 0 1 (Js.Num 5) (Js.Num 15) false subtherapeutic]
                   (Sample.mk 0 0 Js.NaN Js.NaN false therapeutic)
                   (Sample.mk 1 2 (Js.Num 5) (Js.Num 15) false
                              subtherapeutic)).
    + discriminate.
    + repeat constructor. cbn. lra.
    + cbn. lra.
    + cbn. lra.
  - apply (Hfield truncating initialState twoSamples). discriminate.
Defined.

(** *** Steady state *)




Lemma ln2_pos : 0 < ln 2.
Proof. pose proof ln_lt_2. lra. Qed.


Lemma halfLifeOf_pos (st : State) : 0 < halfLifeOf st.
Proof.
  unfold halfLifeOf. apply Rdiv_lt_0_compat;
    [apply ln2_pos|apply numericKe_pos].
Qed.

Lemma last_default {A : Type} (l : list A) (d d' : A) :
  l <> [] -> last l d = last l d'.
Proof.
  intros Hne. destruct l as [|x pre _] using rev_ind; [contradiction|].
  now rewrite !last_last.
Qed.


Section SteadyState.
Context {rt : Js.Runtime}.
Variable st : State.
Variable data : list Sample.t.
Variable d : Sample.t.
Hypothesis data_nonempty : data <> [].




End SteadyState.



Lemma last_map_seq {A : Type} (f : nat -> A) (K : nat) (d : A) :
  last (map f (seq 0 (S K))) d = f K.
Proof. rewrite seq_S, map_app. cbn [map]. apply last_last. Qed.


Lemma samplePoint_concentration {rt : Js.Runtime} (st : State) (t : R) :
  Sample.concentration (samplePoint st t) = concentrationAt st t.
Proof. reflexivity. Qed.







(** *** Peak time and concentration *)







Lemma oralDefault_rates :
  numericKa oralDefault = 0.5 /\ numericKe oralDefault = 0.1.
Proof. split; apply clamp_Num; unfold epsilon; lra. Qed.




Lemma peak_oral_far (st : State) :
  administrationType st = oral -> numericKe st + 1e-12 < numericKa st ->
  let T := ln (numericKa st / numericKe st) / (numericKa st - numericKe st) in
  peak st = (Some T, Some (single st T)).
Proof.
  intros H Hlt. unfold peak, single. rewrite H.
  destruct (Rgt_dec (numericKa st) (numericKe st + 1e-12)); [reflexivity|lra].
Qed.




(* ================================================================== *)
(** ** The legacy component against the improved IV model *)

Section LegacyRuns.
Variable st : Legacy.State.
Hypothesis interval_pos : 0 < Legacy.interval st.

Lemma floor_index (x : R) :
  0 <= x -> INR (Z.to_nat (Zfloor x)) <= x < INR (S (Z.to_nat (Zfloor x))).
Proof.
  intros Hx. pose proof (Zfloor_bound x) as [Hlo Hhi].
  assert (Hz : (0 <= Zfloor x)%Z) by (apply (Zfloor_lub 0); exact Hx).
  rewrite S_INR, INR_IZR_INZ, Z2Nat.id by exact Hz. lra.
Qed.

Lemma lastDose_floor (t : R) :
  0 <= t -> Spec.lastDose st t (Z.to_nat (Zfloor (t / Legacy.interval st))).
Proof.
  intros Ht. apply floor_index.
  apply Rmult_le_pos; [exact Ht|]. left. now apply Rinv_0_lt_compat.
Qed.

Lemma doseLoop_run (t : R) (M : nat) :
  Spec.lastDose st t M ->
  forall m j fuel conc,
    (j + m = S M)%nat -> (m < fuel)%nat ->
    Legacy.doseLoop st fuel t j conc
    = Some (fold_left (Spec.legacyBody st t) (seq j m) conc).
Proof.
  intros [HM1 HM2]. induction m as [|m IH]; intros j fuel conc Hj Hfuel.
  - destruct fuel as [|fuel]; [lia|]. cbn [Legacy.doseLoop seq fold_left].
    replace j with (S M) by lia.
    destruct (Rle_dec (INR (S M)) (t / Legacy.interval st)); [lra|].
    reflexivity.
  - destruct fuel as [|fuel]; [lia|]. cbn [Legacy.doseLoop seq fold_left].
    assert (Hle : INR j <= t / Legacy.interval st).
    { assert (INR j <= INR M) by (apply le_INR; lia). lra. }
    destruct (Rle_dec (INR j) (t / Legacy.interval st)); [|contradiction].
    cbv zeta. rewrite IH by lia. reflexivity.
Qed.

(** The legacy sum at [t] is the improved superposition for any dose count
    [n] with [n * interval > t]. *)
Lemma legacy_sum_improved (t : R) (M : nat) (n : Z) :
  Spec.lastDose st t M -> t < IZR n * Legacy.interval st ->
  fold_left (Spec.legacyBody st t) (seq 0 (S M)) 0
  = calculateMultipleDoses
      t (fun tau => calculateIVBolus tau (Legacy.dose st / 1) (Legacy.k st))
      (Legacy.interval st) n.
Proof.
  intros [HM1 HM2] Hn.
  assert (HMt : INR M * Legacy.interval st <= t).
  { apply (Rmult_le_compat_r (Legacy.interval st)) in HM1; [|lra].
    unfold Rdiv in HM1. rewrite Rmult_assoc, Rinv_l, Rmult_1_r in HM1 by lra.
    exact HM1. }
  assert (Hlt : (Z.of_nat M < n)%Z).
  { apply lt_IZR. rewrite <- INR_IZR_INZ.
    apply (Rmult_lt_reg_r (Legacy.interval st)); [exact interval_pos|]. lra. }
  unfold calculateMultipleDoses.
  replace (Z.to_nat n) with (S M + (Z.to_nat n - S M))%nat by lia.
  rewrite seq_app, fold_left_app. cbn [Nat.add].
  set (body := fun total i => _).
  assert (Hsame : forall l a, fold_left (Spec.legacyBody st t) l a = fold_left body l a).
  { intros l a. apply fold_left_ext_in. intros c i _.
    unfold Spec.legacyBody, body, calculateIVBolus. cbv zeta.
    destruct (Rge_dec t (INR i * Legacy.interval st)); [|reflexivity].
    f_equal. unfold Rdiv. rewrite Rinv_1, Rmult_1_r. reflexivity. }
  assert (Hskip : forall l a,
             Forall (fun i => (S M <= i)%nat) l -> fold_left body l a = a).
  { induction l as [|i l IHl]; intros a Hl; [reflexivity|].
    inversion Hl as [|? ? Hi Hl']; subst. cbn [fold_left].
    unfold body at 2. cbv zeta.
    assert (HSM : INR (S M) * Legacy.interval st > t).
    { apply (Rmult_lt_compat_r (Legacy.interval st)) in HM2; [|lra].
      unfold Rdiv in HM2.
      rewrite Rmult_assoc, Rinv_l, Rmult_1_r in HM2 by lra. lra. }
    assert (INR (S M) <= INR i) by (apply le_INR; exact Hi).
    destruct (Rge_dec t (INR i * Legacy.interval st)); [nra|].
    now apply IHl. }
  rewrite Hskip; [apply Hsame|].
  apply Forall_forall. intros i Hi. apply in_seq in Hi. lia.
Qed.

Lemma concentrationAt_run (t : R) (fuel : nat) :
  0 <= t ->
  (Z.to_nat (Zfloor (t / Legacy.interval st)) + 2 <= fuel)%nat ->
  Legacy.concentrationAt st fuel t
  = Some (fold_left (Spec.legacyBody st t)
                    (seq 0 (S (Z.to_nat (Zfloor (t / Legacy.interval st)))))
                    0).
Proof.
  intros Ht Hfuel. unfold Legacy.concentrationAt.
  apply (doseLoop_run t _ (lastDose_floor t Ht)); lia.
Qed.

Lemma timeLoop_run (D innerFuel : nat) :
  INR D <= Legacy.duration st < INR (S D) ->
  (Z.to_nat (Zfloor (Legacy.duration st / Legacy.interval st)) + 2
   <= innerFuel)%nat ->
  forall m j fuel acc,
    (j + m = S D)%nat -> (m < fuel)%nat ->
    Legacy.timeLoop st innerFuel fuel j acc
    = Some (acc ++ map (fun t => Legacy.mkPoint (INR t) (Spec.legacyConc st t))
                       (seq j m)).
Proof.
  intros [HD1 HD2] Hinner. induction m as [|m IH]; intros j fuel acc Hj Hfuel.
  - destruct fuel as [|fuel]; [lia|]. cbn [Legacy.timeLoop seq map].
    replace j with (S D) by lia.
    destruct (Rle_dec (INR (S D)) (Legacy.duration st)); [lra|].
    now rewrite app_nil_r.
  - destruct fuel as [|fuel]; [lia|]. cbn [Legacy.timeLoop seq map].
    assert (Hle : INR j <= Legacy.duration st).
    { assert (INR j <= INR D) by (apply le_INR; lia). lra. }
    destruct (Rle_dec (INR j) (Legacy.duration st)); [|contradiction].
    rewrite concentrationAt_run.
    + fold (Spec.legacyConc st j). rewrite IH by lia. now rewrite <- app_assoc.
    + apply pos_INR.
    + assert (Hmono : (Zfloor (INR j / Legacy.interval st)
                       <= Zfloor (Legacy.duration st / Legacy.interval st))%Z).
      { apply Zfloor_le. apply Rmult_le_compat_r; [|exact Hle].
        left. now apply Rinv_0_lt_compat. }
      lia.
Qed.

End LegacyRuns.

(** *** The two dose tests in binary64 *)

Section DoubleLegacy.
Context {lib : Double.MathLib}.
Variable st : Double.Legacy.State.

Lemma doseLoop_counted (t : Double.number) (K : nat) :
  (forall i, (i < K)%nat ->
     Double.leb (Double.of_nat i) (Double.div t (Double.Legacy.interval st))
     = true) ->
  Double.leb (Double.of_nat K) (Double.div t (Double.Legacy.interval st))
  = false ->
  forall m j fuel conc,
    (j + m = K)%nat -> (m < fuel)%nat ->
    Double.Legacy.doseLoop st fuel t j conc
    = Some (fold_left (Spec.legacyBodyB st t) (seq j m) conc).
Proof.
  intros Hin Hout. induction m as [|m IH]; intros j fuel conc Hj Hfuel.
  - destruct fuel as [|fuel]; [lia|].
    cbn [Double.Legacy.doseLoop seq fold_left].
    replace j with K by lia. now rewrite Hout.
  - destruct fuel as [|fuel]; [lia|].
    cbn [Double.Legacy.doseLoop seq fold_left].
    rewrite Hin by lia. cbv zeta. rewrite IH by lia. reflexivity.
Qed.

Lemma legacyBodyB_improved (t : Double.number) (l : list nat)
      (acc : Double.number) :
  fold_left (Spec.legacyBodyB st t) l acc
  = fold_left
      (fun total i =>
         let doseTime := Double.mul (Double.of_nat i)
                                    (Double.Legacy.interval st) in
         if Double.geb t doseTime
         then Double.add total
                         (Double.calculateIVBolus
                            (Double.sub t doseTime) (Double.Legacy.dose st)
                            (Double.Legacy.k st))
         else total)
      l acc.
Proof. reflexivity. Qed.

Lemma improved_skips (t : Double.number) (f : Double.number -> Double.number)
      (tau : Double.number) (l : list nat) (acc : Double.number) :
  Forall (fun i => Double.geb t (Double.mul (Double.of_nat i) tau) = false)
         l ->
  fold_left
    (fun total i =>
       let doseTime := Double.mul (Double.of_nat i) tau in
       if Double.geb t doseTime
       then Double.add total (f (Double.sub t doseTime))
       else total)
    l acc
  = acc.
Proof.
  intros Hl. revert acc. induction Hl as [|i l Hi _ IH]; intros acc;
    [reflexivity|].
  cbn [fold_left]. cbv zeta. rewrite Hi. apply IH.
Qed.

End DoubleLegacy.

(** C10, as stated, fails in the engine's arithmetic.  With dose 500,
    half-life 6 and the interval field 2.2, at hour 33 the quotient
    [33 / 2.2] rounds to 14.999999999999998, so the legacy loop stops
    after dose 14, while the product [15 * 2.2] rounds to 33, so the
    improved test counts dose 15 as given at that instant: with sixteen
    doses ([16 * 2.2 > 33]) the legacy value is 1689.7... and the improved
    one 2189.7.... *)
Lemma C10_counterexample :
  let st := legacyBoundary in
  let t := Double.of_nat 33 in
  let improved :=
    Double.calculateMultipleDoses
      t
      (fun tau =>
         @Double.calculateIVBolus reference tau (Double.Legacy.dose st)
                                  (@Double.Legacy.k reference st))
      (Double.Legacy.interval st) 16 in
  Double.toR t < 16 * Double.toR (Double.Legacy.interval st)
  /\ Double.ltb Double.zero (Double.Legacy.halfLife st) = true
  /\ Double.ltb Double.zero (Double.Legacy.interval st) = true
  /\ Double.leb t (Double.Legacy.duration st) = true
  /\ Double.ltb (Double.div t (Double.Legacy.interval st)) (Double.of_nat 15)
     = true
  /\ Double.geb t (Double.mul (Double.of_nat 15) (Double.Legacy.interval st))
     = true
  /\ exists legacy,
      @Double.Legacy.concentrationAt reference st 20 t = Some legacy
      /\ legacy <> improved
      /\ Double.leb (Double.decimal 16897 1) legacy
         && Double.ltb legacy (Double.decimal 16898 1) = true
      /\ Double.leb (Double.decimal 21897 1) improved
         && Double.ltb improved (Double.decimal 21898 1) = true.
Proof.
  intros st t improved. subst st t improved.
  split.
  { change (Double.of_nat 33) with (Double.of_Z 33).
    change (Double.Legacy.interval legacyBoundary)
      with (Double.decimal 22 1).
    destruct boundary_values as [-> ->]. lra. }
  do 5 (split; [vm_compute; reflexivity|]).
  eexists. split; [vm_compute; reflexivity|].
  split; [|split; vm_compute; reflexivity].
  vm_compute. discriminate.
Qed.

(** C10 (amended).  Let [K] be the index at which the legacy dose loop
    stops at hour [t] (the first [K] above the rounded quotient
    [t / interval]) and let the dose count [n >= K] be such that no index
    from [K] on passes the improved test [t >= i * interval], made on the
    rounded product.  Then the legacy loop terminates and the concentration
    it pushes for hour [t] is the improved IV multi-dose concentration at
    [t] with [C0 = dose] (volume 1), [ke] the legacy rate constant
    [Math.log(2) / halfLife] and [n] doses, for every [Math.exp] and
    [Math.log]. *)
Theorem C10_legacy_is_improved_iv {lib : Double.MathLib}
        (st : Double.Legacy.State) (t K : nat) (n : Z) :
  (forall i, (i < K)%nat ->
     Double.leb (Double.of_nat i)
                (Double.div (Double.of_nat t) (Double.Legacy.interval st))
     = true) ->
  Double.leb (Double.of_nat K)
             (Double.div (Double.of_nat t) (Double.Legacy.interval st))
  = false ->
  (Z.of_nat K <= n)%Z ->
  (forall i, (K <= i)%nat -> (Z.of_nat i < n)%Z ->
     Double.geb (Double.of_nat t)
                (Double.mul (Double.of_nat i) (Double.Legacy.interval st))
     = false) ->
  forall fuel, (K < fuel)%nat ->
    Double.Legacy.concentrationAt st fuel (Double.of_nat t)
    = Some (Double.calculateMultipleDoses
              (Double.of_nat t)
              (fun tau =>
                 Double.calculateIVBolus tau (Double.Legacy.dose st)
                                         (Double.Legacy.k st))
              (Double.Legacy.interval st) n).
Proof.
  intros Hin Hout Hn Hlate fuel Hfuel.
  unfold Double.Legacy.concentrationAt.
  rewrite (doseLoop_counted st (Double.of_nat t) K Hin Hout K 0 fuel)
    by lia.
  f_equal. rewrite legacyBodyB_improved.
  unfold Double.calculateMultipleDoses.
  replace (Z.to_nat n) with (K + (Z.to_nat n - K))%nat by lia.
  rewrite seq_app, fold_left_app. cbn [Nat.add].
  symmetry.
  apply (improved_skips
           (Double.of_nat t)
           (fun tau =>
              Double.calculateIVBolus tau (Double.Legacy.dose st)
                                      (Double.Legacy.k st))).
  apply Forall_forall. intros i Hi. apply in_seq in Hi.
  apply Hlate; lia.
Qed.

(** The legacy defaults at hour 16: the loop stops at [K = 3], and doses 3
    and 4 of five are not yet due. *)
Lemma C10_legacy_is_improved_iv_witness :
  @Double.Legacy.concentrationAt reference legacyDefaults 4
                                 (Double.of_nat 16)
  = Some (Double.calculateMultipleDoses
            (Double.of_nat 16)
            (fun tau =>
               @Double.calculateIVBolus
                 reference tau (Double.of_Z 500)
                 (@Double.Legacy.k reference legacyDefaults))
            (Double.of_Z 8) 5).
Proof.
  apply (@C10_legacy_is_improved_iv reference legacyDefaults 16 3 5).
  - intros i Hi. destruct i as [|[|[|i]]]; [vm_compute; reflexivity..|lia].
  - vm_compute. reflexivity.
  - lia.
  - intros i H1 H2. assert (H : i = 3%nat \/ i = 4%nat) by lia.
    destruct H as [-> | ->]; vm_compute; reflexivity.
  - lia.
Defined.

(* ================================================================== *)
(** ** Further properties of the improved component *)

(** *** Rendering with [toFixed] *)

Lemma toFixedAbs_nonneg (f : nat) (x : R) : 0 <= x -> 0 <= Js.toFixedAbs f x.
Proof.
  intros Hx. pose proof (pow10_pos f) as HP. unfold Js.toFixedAbs.
  destruct (Rle_dec (10 ^ 21) x); [exact Hx|].
  apply Rmult_le_pos; [|left; now apply Rinv_0_lt_compat].
  apply IZR_le. unfold Js.roundHalfUp. apply (Zfloor_lub 0).
  assert (0 <= x * 10 ^ f) by (apply Rmult_le_pos; lra). lra.
Qed.

Lemma toFixedAbs_error (f : nat) (x : R) :
  0 <= x -> Rabs (Js.toFixedAbs f x - x) <= / (2 * 10 ^ f).
Proof.
  intros Hx. pose proof (pow10_pos f) as HP.
  assert (Hhalf : 0 < / (2 * 10 ^ f)) by (apply Rinv_0_lt_compat; lra).
  unfold Js.toFixedAbs. destruct (Rle_dec (10 ^ 21) x).
  - replace (x - x) with 0 by lra. rewrite Rabs_R0. lra.
  - unfold Js.roundHalfUp.
    pose proof (Zfloor_bound (x * 10 ^ f + / 2)) as [Hlo Hhi].
    set (m := IZR (Zfloor (x * 10 ^ f + / 2))) in *.
    set (P := 10 ^ f) in *.
    assert (Hq : m / P * P = m) by (field; lra).
    assert (Hi : / (2 * P) * P = / 2) by (field; lra).
    apply Rabs_le. split.
    + apply Rmult_le_reg_r with P; [exact HP|]. nra.
    + apply Rmult_le_reg_r with P; [exact HP|]. nra.
Qed.

Lemma toFixedAbs_mono (f : nat) (x y : R) :
  0 <= x -> x <= y -> Js.toFixedAbs f x <= Js.toFixedAbs f y.
Proof.
  intros Hx Hxy. pose proof (pow10_pos f) as HP. unfold Js.toFixedAbs.
  destruct (Rle_dec (10 ^ 21) x), (Rle_dec (10 ^ 21) y); try lra.
  - (* x below the threshold, y at or above it *)
    apply Rle_trans with (10 ^ 21); [|lra].
    apply Rmult_le_reg_r with (10 ^ f); [exact HP|].
    unfold Rdiv. rewrite Rmult_assoc, Rinv_l, Rmult_1_r by lra.
    rewrite <- pow_add.
    replace (10 ^ (21 + f)) with (IZR (10 ^ Z.of_nat (21 + f))).
    + apply IZR_le. unfold Js.roundHalfUp.
      assert (Hlt : x * 10 ^ f + / 2 < IZR (10 ^ Z.of_nat (21 + f)) + 1).
      { rewrite <- pow_IZR, pow_add. nra. }
      pose proof (Zfloor_bound (x * 10 ^ f + / 2)) as [Hlo _].
      assert (H : IZR (Zfloor (x * 10 ^ f + / 2))
                  < IZR (10 ^ Z.of_nat (21 + f) + 1)).
      { rewrite plus_IZR. lra. }
      apply lt_IZR in H. lia.
    + now rewrite <- pow_IZR.
  - apply Rmult_le_compat_r; [left; now apply Rinv_0_lt_compat|].
    apply IZR_le. unfold Js.roundHalfUp. apply Zfloor_le.
    assert (x * 10 ^ f <= y * 10 ^ f) by (apply Rmult_le_compat_r; lra).
    lra.
Qed.

Lemma toFixed_nonneg (f : nat) (x : R) : 0 <= x -> 0 <= Js.toFixed f x.
Proof.
  intros Hx. unfold Js.toFixed. destruct (Rlt_dec x 0); [lra|].
  now apply toFixedAbs_nonneg.
Qed.

Lemma toFixed_error (f : nat) (x : R) :
  Rabs (Js.toFixed f x - x) <= / (2 * 10 ^ f).
Proof.
  unfold Js.toFixed. destruct (Rlt_dec x 0) as [Hneg|Hpos].
  - replace (- Js.toFixedAbs f (- x) - x)
      with (- (Js.toFixedAbs f (- x) - - x)) by lra.
    rewrite Rabs_Ropp. apply toFixedAbs_error. lra.
  - apply toFixedAbs_error. lra.
Qed.

Lemma toFixed_mono (f : nat) (x y : R) :
  x <= y -> Js.toFixed f x <= Js.toFixed f y.
Proof.
  intros Hxy. unfold Js.toFixed.
  destruct (Rlt_dec x 0) as [Hx|Hx], (Rlt_dec y 0) as [Hy|Hy]; try lra.
  - apply Ropp_le_contravar. apply toFixedAbs_mono; lra.
  - pose proof (toFixedAbs_nonneg f (- x)). pose proof (toFixedAbs_nonneg f y).
    lra.
  - apply toFixedAbs_mono; lra.
Qed.

(** *** Shape of a simulation run *)

Lemma simulateLoop_result {rt : Js.Runtime} (st : State) (K : nat) :
  Spec.lastIndex st K ->
  forall m j fuel acc data,
    (j + m = S K)%nat ->
    simulateLoop st fuel (INR j * dt) acc = Some data ->
    data = acc ++ map (fun k => samplePoint st (INR k * dt)) (seq j m).
Proof.
  intros [HK1 HK2]. induction m as [|m IH]; intros j fuel acc data Hj Hrun.
  - destruct fuel as [|fuel]; [discriminate|].
    cbn [simulateLoop] in Hrun. replace j with (S K) in Hrun by lia.
    destruct (Rle_dec (INR (S K) * dt) (maxTime st + 1e-9)); [lra|].
    injection Hrun as <-. cbn. now rewrite app_nil_r.
  - destruct fuel as [|fuel]; [discriminate|].
    cbn [simulateLoop] in Hrun.
    assert (Hle : INR j * dt <= maxTime st + 1e-9).
    { assert (INR j <= INR K) by (apply le_INR; lia). unfold dt in *. nra. }
    destruct (Rle_dec (INR j * dt) (maxTime st + 1e-9)); [|contradiction].
    replace (INR j * dt + dt) with (INR (S j) * dt) in Hrun
      by (rewrite S_INR; lra).
    apply IH in Hrun; [|lia]. subst data.
    cbn [seq map]. now rewrite <- app_assoc.
Qed.

(** Whatever the fuel, a run that returns has produced the whole grid. *)
Lemma simulatePK_result {rt : Js.Runtime} (st : State) (K fuel : nat)
      (data : list Sample.t) :
  Spec.lastIndex st K -> simulatePK st fuel = Some data ->
  data = map (fun k => samplePoint st (INR k * dt)) (seq 0 (S K)).
Proof.
  intros HK Hrun. unfold simulatePK in Hrun.
  replace 0 with (INR 0 * dt) in Hrun by (cbn; lra).
  now apply (simulateLoop_result st K HK (S K) 0%nat fuel []) in Hrun.
Qed.

Lemma lastIndex_ge_96 {rt : Js.Runtime} (st : State) (K : nat) :
  Spec.lastIndex st K -> (96 <= K)%nat.
Proof.
  intros [_ HK2]. pose proof (maxTime_ge st) as HM.
  assert (H : INR 96 < INR (S K)).
  { rewrite (INR_IZR_INZ 96). replace (Z.of_nat 96) with 96%Z by reflexivity.
    unfold dt in HK2. lra. }
  apply INR_lt in H. lia.
Qed.

Lemma grid_timeOrdered {rt : Js.Runtime} (st : State) (m j : nat) :
  Spec.timeOrdered (map (fun k => samplePoint st (INR k * dt)) (seq j m)).
Proof.
  unfold Spec.timeOrdered. revert j. induction m as [|m IH]; intros j.
  - constructor.
  - cbn [seq map]. constructor; [apply IH|].
    destruct m as [|m]; cbn [seq map]; constructor.
    rewrite !samplePoint_quarter. cbn [Sample.time].
    rewrite S_INR. unfold dt. lra.
Qed.

Lemma grid_nonnegative {rt : Js.Runtime} (st : State) (l : list nat) :
  Spec.nonnegative (map (fun k => samplePoint st (INR k * dt)) l).
Proof.
  unfold Spec.nonnegative. apply Forall_forall. intros s Hs.
  apply in_map_iff in Hs. destruct Hs as [k [<- _]].
  rewrite samplePoint_concentration. apply concentrationAt_nonneg.
Qed.

Lemma toFixed3_half_unit : / (2 * 10 ^ 3) = 0.0005.
Proof. cbn [pow]. lra. Qed.

(** X1.  Every run of the simulation that returns has produced at least 97
    samples, with non-negative concentrations at non-decreasing times; the
    metrics of such a run exist for any current parameters, and the AUC
    they report is non-negative and within 0.0005 of the trapezoidal
    sum. *)
Theorem simulated_data_has_metrics {rt : Js.Runtime} (st : State)
        (fuel : nat) (data : list Sample.t) :
  simulatePK st fuel = Some data ->
  (97 <= length data)%nat
  /\ Spec.nonnegative data
  /\ Spec.timeOrdered data
  /\ forall st' : State,
      exists m,
        calculateMetrics st' data = Some m
        /\ 0 <= AUC m
        /\ Rabs (AUC m - Spec.trapezoid data) <= 0.0005.
Proof.
  intros Hrun. destruct (lastIndex_exists st) as [K HK].
  pose proof (lastIndex_ge_96 st K HK) as HK96.
  rewrite (simulatePK_result st K fuel data HK Hrun).
  set (grid := map _ _).
  assert (Hlen : length grid = S K)
    by (unfold grid; now rewrite length_map, length_seq).
  assert (Hc : Spec.nonnegative grid) by apply grid_nonnegative.
  assert (Hs : Spec.timeOrdered grid) by apply grid_timeOrdered.
  split; [lia|]. split; [exact Hc|]. split; [exact Hs|].
  intros st'.
  destruct (calculateMetrics_defined st' grid) as [m Hm].
  { intros Hnil. rewrite Hnil in Hlen. discriminate. }
  exists m. split; [exact Hm|].
  apply calculateMetrics_fields in Hm.
  destruct Hm as [_ [_ [_ [_ [Hauc _]]]]].
  rewrite Hauc, trapezoidLoop_spec. split.
  - apply toFixed_nonneg. now apply trapezoid_nonneg.
  - rewrite <- toFixed3_half_unit. apply toFixed_error.
Qed.

(** The initial state: 129 samples, whose metrics exist. *)
Lemma simulated_data_has_metrics_witness :
  exists data m,
    @simulatePK truncating initialState 130 = Some data
    /\ @calculateMetrics truncating initialState data = Some m
    /\ 0 <= AUC m.
Proof.
  pose proof (simulatePK_grid initialState 128 130 initial_lastIndex
                              ltac:(lia)) as Hrun.
  destruct (simulated_data_has_metrics (rt := truncating) initialState 130 _
                                       Hrun)
    as [_ [_ [_ Hm]]].
  destruct (Hm initialState) as [m [Hmm [Hauc _]]].
  eexists. exists m. split; [exact Hrun|]. split; [exact Hmm|exact Hauc].
Defined.

(** *** Classification of a sample against the band *)

Lemma sample_classification {rt : Js.Runtime} (st : State) (t lo hi : R) :
  therapeuticMin st = Js.Num lo -> therapeuticMax st = Js.Num hi ->
  let s := samplePoint st t in
  (Sample.inRange s = true <-> Sample.status s = therapeutic)
  /\ (Sample.inRange s = true <-> lo <= Sample.concentration s <= hi)
  /\ (Sample.status s = subtherapeutic <-> Sample.concentration s < lo)
  /\ (Sample.status s = toxic
      <-> lo <= Sample.concentration s /\ hi < Sample.concentration s).
Proof.
  intros Hlo Hhi s. subst s. unfold samplePoint.
  cbn [Sample.inRange Sample.status Sample.concentration].
  rewrite Hlo, Hhi.
  unfold Js.geb, Js.leb, Js.ltb, Js.gtb, Js.Rgeb, Js.Rleb, Js.Rltb, Js.Rgtb.
  set (c := concentrationAt st t).
  destruct (Rge_dec c lo), (Rle_dec c hi), (Rlt_dec c lo), (Rgt_dec c hi);
    cbn [andb]; try lra;
    repeat split; intros; try discriminate; try reflexivity; try lra;
    try (exfalso; lra).
Qed.

(** X2.  With a numeric band, every sample of a run is in range exactly
    when its status is therapeutic, that is when min <= C <= max; it is
    subtherapeutic exactly when C < min, and toxic exactly when C >= min
    and C > max. *)
Theorem simulated_samples_classified {rt : Js.Runtime} (st : State)
        (lo hi : R) (fuel : nat) (data : list Sample.t) (s : Sample.t) :
  therapeuticMin st = Js.Num lo -> therapeuticMax st = Js.Num hi ->
  simulatePK st fuel = Some data -> In s data ->
  (Sample.inRange s = true <-> Sample.status s = therapeutic)
  /\ (Sample.inRange s = true <-> lo <= Sample.concentration s <= hi)
  /\ (Sample.status s = subtherapeutic <-> Sample.concentration s < lo)
  /\ (Sample.status s = toxic
      <-> lo <= Sample.concentration s /\ hi < Sample.concentration s).
Proof.
  intros Hlo Hhi Hrun Hs. unfold simulatePK in Hrun.
  eapply simulateLoop_invariant
    with (P := fun s =>
                 (Sample.inRange s = true <-> Sample.status s = therapeutic)
                 /\ (Sample.inRange s = true
                     <-> lo <= Sample.concentration s <= hi)
                 /\ (Sample.status s = subtherapeutic
                     <-> Sample.concentration s < lo)
                 /\ (Sample.status s = toxic
                     <-> lo <= Sample.concentration s
                         /\ hi < Sample.concentration s))
    in Hrun.
  - rewrite Forall_forall in Hrun. exact (Hrun s Hs).
  - intros t. exact (sample_classification st t lo hi Hlo Hhi).
  - constructor.
Qed.

(** The first sample of the initial state, band 5 .. 15. *)
Lemma simulated_samples_classified_witness :
  let s := @samplePoint truncating initialState (INR 0 * dt) in
  Sample.inRange s = true <-> Sample.status s = therapeutic.
Proof.
  intros s.
  apply (simulated_samples_classified
           (rt := truncating) initialState 5 15 130 _ s
           eq_refl eq_refl
           (simulatePK_grid initialState 128 130 initial_lastIndex
                            ltac:(lia))).
  left. reflexivity.
Defined.

(** X3.  When the lower band bound is NaN no sample of a run is in range
    and none is subtherapeutic; when both bounds are NaN every sample has
    status therapeutic although none is in range. *)
Theorem nan_band_classification {rt : Js.Runtime} (st : State)
        (fuel : nat) (data : list Sample.t) (s : Sample.t) :
  therapeuticMin st = Js.NaN ->
  simulatePK st fuel = Some data -> In s data ->
  Sample.inRange s = false
  /\ Sample.status s <> subtherapeutic
  /\ (therapeuticMax st = Js.NaN -> Sample.status s = therapeutic).
Proof.
  intros Hlo Hrun Hs. unfold simulatePK in Hrun.
  eapply simulateLoop_invariant
    with (P := fun s =>
                 Sample.inRange s = false
                 /\ Sample.status s <> subtherapeutic
                 /\ (therapeuticMax st = Js.NaN
                     -> Sample.status s = therapeutic))
    in Hrun.
  - rewrite Forall_forall in Hrun. exact (Hrun s Hs).
  - intros t. unfold samplePoint. cbn [Sample.inRange Sample.status].
    rewrite Hlo. cbn [Js.geb Js.ltb andb].
    split; [reflexivity|]. split.
    + destruct (Js.gtb _ _); discriminate.
    + intros ->. reflexivity.
  - constructor.
Qed.

(** The all-NaN state: its first sample is therapeutic but not in range. *)
Lemma nan_band_classification_witness :
  let s := @samplePoint truncating allNaN (INR 0 * dt) in
  Sample.inRange s = false /\ Sample.status s = therapeutic.
Proof.
  intros s. destruct (lastIndex_exists (rt := truncating) allNaN) as [K HK].
  destruct (nan_band_classification
              (rt := truncating) allNaN (K + 2) _ s eq_refl
              (simulatePK_grid allNaN K (K + 2) HK ltac:(lia)))
    as [Hin [_ Hst]].
  - left. reflexivity.
  - split; [exact Hin|]. apply Hst. reflexivity.
Defined.

(** *** Structure of the superposition *)

Lemma sum_app (xs ys : list R) : Spec.sum (xs ++ ys) = Spec.sum xs + Spec.sum ys.
Proof.
  unfold Spec.sum. induction xs as [|x xs IH]; cbn; [lra|].
  rewrite IH. lra.
Qed.

Lemma dosesGiven_late (t tau : R) (j m : nat) :
  0 < tau -> t < INR j * tau ->
  filter (fun i => Js.Rleb (INR i * tau) t) (seq j m) = [].
Proof.
  intros Htau Hj. revert j Hj. induction m as [|m IH]; intros j Hj;
    [reflexivity|].
  cbn [seq filter].
  assert (Hoff : Js.Rleb (INR j * tau) t = false).
  { unfold Js.Rleb. destruct (Rle_dec (INR j * tau) t); [lra|reflexivity]. }
  rewrite Hoff. apply IH. rewrite S_INR. nra.
Qed.

(** X4.  On the quarter-hour grid, where the products [i * tau] are exact
    in the engine's arithmetic (query time and interval both multiples of
    0.25), doses scheduled after the query time contribute nothing: any
    two dose counts whose last dose falls after [t] give the same
    concentration at [t], and before the first dose the concentration is
    0. *)
Theorem doses_after_t_ignored (t : R) (f : R -> R) (tau : R) (n m : Z) :
  (exists a : Z, t = IZR a * 0.25) ->
  (exists b : Z, tau = IZR b * 0.25) ->
  0 < tau ->
  (t < IZR n * tau -> t < IZR m * tau ->
   calculateMultipleDoses t f tau n = calculateMultipleDoses t f tau m)
  /\ (t < 0 -> calculateMultipleDoses t f tau n = 0).
Proof.
  intros _ _ Htau.
  assert (Hcut : forall k : Z,
             t < IZR k * tau -> forall extra : nat,
             Spec.dosesGiven t tau (Z.of_nat (Z.to_nat k + extra))
             = Spec.dosesGiven t tau k).
  { intros k Hk extra. unfold Spec.dosesGiven.
    rewrite Nat2Z.id, seq_app, filter_app. cbn [Nat.add].
    rewrite (dosesGiven_late t tau (Z.to_nat k) extra);
      [now rewrite app_nil_r|exact Htau|].
    destruct (Z.le_gt_cases 0 k) as [Hk0|Hk0].
    - now rewrite INR_IZR_INZ, Z2Nat.id.
    - replace (Z.to_nat k) with 0%nat by lia. cbn [INR].
      assert (IZR k < 0) by (apply (IZR_lt k 0); lia). nra. }
  split.
  - intros Hn Hm. rewrite !calculateMultipleDoses_sum.
    destruct (Nat.le_ge_cases (Z.to_nat n) (Z.to_nat m)) as [Hle|Hle].
    + rewrite <- (Hcut n Hn (Z.to_nat m - Z.to_nat n)%nat).
      unfold Spec.dosesGiven. rewrite Nat2Z.id.
      replace (Z.to_nat n + (Z.to_nat m - Z.to_nat n))%nat
        with (Z.to_nat m) by lia.
      reflexivity.
    + rewrite <- (Hcut m Hm (Z.to_nat n - Z.to_nat m)%nat).
      unfold Spec.dosesGiven. rewrite Nat2Z.id.
      replace (Z.to_nat m + (Z.to_nat n - Z.to_nat m))%nat
        with (Z.to_nat n) by lia.
      reflexivity.
  - intros Ht. rewrite calculateMultipleDoses_sum. unfold Spec.dosesGiven.
    rewrite dosesGiven_late; [reflexivity|exact Htau|]. cbn [INR]. lra.
Qed.

(** Three and five doses at interval 8 agree at hour 16. *)
Lemma doses_after_t_ignored_witness :
  calculateMultipleDoses 16 (fun x => x) 8 3
  = calculateMultipleDoses 16 (fun x => x) 8 5
  /\ calculateMultipleDoses (-1) (fun x => x) 8 3 = 0.
Proof.
  destruct (doses_after_t_ignored 16 (fun x => x) 8 3 5) as [H _];
    [exists 64%Z; lra|exists 32%Z; lra|lra|].
  destruct (doses_after_t_ignored (-1) (fun x => x) 8 3 3) as [_ H'];
    [exists (-4)%Z; lra|exists 32%Z; lra|lra|].
  split; [apply H; lra|apply H'; lra].
Defined.

Lemma dosesGiven_first (t tau : R) (n : Z) :
  0 <= t < tau -> (1 <= n)%Z -> Spec.dosesGiven t tau n = [0%nat].
Proof.
  intros [Ht0 Ht1] Hn. unfold Spec.dosesGiven.
  replace (Z.to_nat n) with (1 + (Z.to_nat n - 1))%nat by lia.
  rewrite seq_app, filter_app. cbn [Nat.add seq filter].
  rewrite dosesGiven_late; [|lra|cbn [INR]; lra].
  unfold Js.Rleb. cbn [INR].
  destruct (Rle_dec (0 * tau) t); [reflexivity|lra].
Qed.

(** X5.  Until the second dose is due the multi-dose concentration is the
    single-dose response; with a dose count of 1 this holds at every
    [t >= 0]. *)
Theorem single_response_until_second_dose (t : R) (f : R -> R) (tau : R)
        (n : Z) :
  0 <= t -> 0 < tau -> (1 <= n)%Z ->
  (t < tau -> calculateMultipleDoses t f tau n = f t)
  /\ (n = 1%Z -> calculateMultipleDoses t f tau n = f t).
Proof.
  intros Ht Htau Hn. split.
  - intros Hlt. rewrite calculateMultipleDoses_sum.
    rewrite dosesGiven_first; [|lra|exact Hn].
    cbn [map INR]. unfold Spec.sum. cbn [fold_right].
    replace (t - 0 * tau) with t by lra. lra.
  - intros ->. unfold calculateMultipleDoses.
    change (Z.to_nat 1) with 1%nat. cbn [seq fold_left INR].
    destruct (Rge_dec t (0 * tau)); [|lra].
    rewrite Rplus_0_l. f_equal. lra.
Qed.

(** Hour 3 of an 8-hourly schedule, and hour 30 of a single dose. *)
Lemma single_response_until_second_dose_witness :
  calculateMultipleDoses 3 (fun x => 2 * x) 8 4 = 2 * 3
  /\ calculateMultipleDoses 30 (fun x => 2 * x) 8 1 = 2 * 30.
Proof.
  split.
  - apply (proj1 (single_response_until_second_dose
                    3 (fun x => 2 * x) 8 4
                    ltac:(lra) ltac:(lra) ltac:(lia))). lra.
  - apply (proj2 (single_response_until_second_dose
                    30 (fun x => 2 * x) 8 1
                    ltac:(lra) ltac:(lra) ltac:(lia))). reflexivity.
Defined.

Lemma dosesGiven_shift (t tau : R) (j m : nat) :
  map S (filter (fun i => Js.Rleb (INR i * tau) t) (seq j m))
  = filter (fun i => Js.Rleb (INR i * tau) (t + tau)) (seq (S j) m).
Proof.
  revert j. induction m as [|m IH]; intros j; [reflexivity|].
  cbn [seq filter].
  assert (Hsame : Js.Rleb (INR (S j) * tau) (t + tau)
                  = Js.Rleb (INR j * tau) t).
  { unfold Js.Rleb. rewrite S_INR.
    destruct (Rle_dec ((INR j + 1) * tau) (t + tau)),
             (Rle_dec (INR j * tau) t); try reflexivity; lra. }
  rewrite Hsame. destruct (Js.Rleb (INR j * tau) t); cbn [map];
    now rewrite IH.
Qed.

(** X6.  One dosing interval later, the curve of [n + 1] doses is the
    response to the first dose plus the curve of [n] doses:
    [C_(n+1) (t + tau) = single (t + tau) + C_n (t)] whenever
    [t + tau >= 0]. *)
Theorem superposition_shift (t : R) (f : R -> R) (tau : R) (n : Z) :
  0 <= t + tau -> (0 <= n)%Z ->
  calculateMultipleDoses (t + tau) f tau (n + 1)
  = f (t + tau) + calculateMultipleDoses t f tau n.
Proof.
  intros Ht Hn. rewrite !calculateMultipleDoses_sum. unfold Spec.dosesGiven.
  replace (Z.to_nat (n + 1)) with (S (Z.to_nat n)) by lia.
  cbn [seq filter]. unfold Js.Rleb at 1. cbn [INR].
  destruct (Rle_dec (0 * tau) (t + tau)); [|lra].
  cbn [map]. change (Spec.sum (?x :: ?l)) with (x + Spec.sum l).
  f_equal.
  - cbn [INR]. f_equal. lra.
  - rewrite <- (dosesGiven_shift t tau 0 (Z.to_nat n)), map_map. f_equal.
    apply map_ext. intros i. f_equal. rewrite S_INR. lra.
Qed.

(** Three doses at hour 16 against two doses at hour 8. *)
Lemma superposition_shift_witness :
  calculateMultipleDoses (8 + 8) (fun x => x) 8 (2 + 1)
  = (8 + 8) + calculateMultipleDoses 8 (fun x => x) 8 2.
Proof. apply (superposition_shift 8 (fun x => x) 8 2); [lra|lia]. Defined.

(** X7.  Dose proportionality: scaling the dose by [c] scales the IV
    response, the oral response (both branches) and every superposition of
    them by [c]. *)
Theorem dose_proportionality (c : R) :
  (forall t C0 keVal,
      calculateIVBolus t (c * C0) keVal = c * calculateIVBolus t C0 keVal)
  /\ (forall t D V kaVal keVal F,
         calculateOralDose t (c * D) V kaVal keVal F
         = c * calculateOralDose t D V kaVal keVal F)
  /\ (forall t f tau n,
         calculateMultipleDoses t (fun x => c * f x) tau n
         = c * calculateMultipleDoses t f tau n).
Proof.
  split; [|split].
  - intros. unfold calculateIVBolus. lra.
  - intros. unfold calculateOralDose.
    destruct (Rlt_dec (Rabs (kaVal - keVal)) 1e-6); cbv zeta; unfold Rdiv; lra.
  - intros t f tau n. rewrite !calculateMultipleDoses_sum.
    induction (Spec.dosesGiven t tau n) as [|i l IH]; cbn [map].
    + cbn. lra.
    + change (Spec.sum (?x :: ?l)) with (x + Spec.sum l). rewrite IH. lra.
Qed.

(** *** The first sample *)

Lemma oral_at_zero (D V kaVal keVal F : R) :
  calculateOralDose 0 D V kaVal keVal F = 0.
Proof.
  unfold calculateOralDose.
  destruct (Rlt_dec (Rabs (kaVal - keVal)) 1e-6); cbv zeta.
  - lra.
  - rewrite !Rmult_0_r. lra.
Qed.

Lemma concentrationAt_zero {rt : Js.Runtime} (st : State) :
  concentrationAt st 0 = single st 0.
Proof.
  unfold concentrationAt. rewrite calculateMultipleDoses_sum.
  pose proof (intv_ge st). pose proof (nDose_ge_1 st).
  rewrite dosesGiven_first by (try lra; assumption).
  cbn [map INR]. unfold Spec.sum. cbn [fold_right].
  replace (0 - 0 * intv st) with 0 by lra. lra.
Qed.

(** X8.  Every run starts with a sample at time 0 whose concentration is
    dose / volume on the IV route and 0 on the oral route. *)
Theorem first_sample {rt : Js.Runtime} (st : State) (fuel : nat)
        (data : list Sample.t) :
  simulatePK st fuel = Some data ->
  exists s0 rest,
    data = s0 :: rest
    /\ Sample.time s0 = 0
    /\ Sample.concentration s0
       = match administrationType st with
         | iv => numericDose st / numericV st
         | oral => 0
         end.
Proof.
  intros Hrun. destruct (lastIndex_exists st) as [K HK].
  rewrite (simulatePK_result st K fuel data HK Hrun).
  cbn [seq map]. eexists. eexists. split; [reflexivity|].
  rewrite samplePoint_quarter. cbn [Sample.time Sample.concentration INR].
  split; [lra|]. rewrite Rmult_0_l, concentrationAt_zero.
  unfold single. destruct (administrationType st).
  - apply iv_at_zero.
  - apply oral_at_zero.
Qed.

(** The initial state starts at 500 / 50. *)
Lemma first_sample_witness :
  exists s0 rest,
    @simulatePK truncating initialState 130 = Some (s0 :: rest)
    /\ Sample.concentration s0
       = numericDose initialState / numericV initialState.
Proof.
  pose proof (simulatePK_grid initialState 128 130 initial_lastIndex
                              ltac:(lia)) as Hrun.
  destruct (first_sample (rt := truncating) initialState 130 _ Hrun)
    as [s0 [rest [Hdata [_ Hc]]]].
  exists s0, rest. split; [now rewrite Hrun, Hdata|exact Hc].
Defined.

(** *** The analytic peak is the maximum of the oral response *)

Lemma exp_ge_1_plus (x : R) : 1 + x <= exp x.
Proof.
  destruct (Req_dec x 0) as [->|Hx].
  - rewrite exp_0. lra.
  - left. now apply exp_ineq1.
Qed.

(** [r * (exp x - 1) <= exp (r * x) - 1] for [r >= 1]. *)
Lemma exp_scaled_increment (r x : R) :
  1 <= r -> r * (exp x - 1) <= exp (r * x) - 1.
Proof.
  intros Hr.
  assert (H1 : exp x * (1 + (r - 1) * x) <= exp (r * x)).
  { replace (r * x) with (x + (r - 1) * x) by lra. rewrite exp_plus.
    apply Rmult_le_compat_l; [left; apply exp_pos|apply exp_ge_1_plus]. }
  assert (H2 : exp x * (1 - x) <= 1).
  { pose proof (exp_ge_1_plus (- x)) as H.
    assert (Hprod : exp x * exp (- x) = 1).
    { rewrite <- exp_plus. replace (x + - x) with 0 by lra. apply exp_0. }
    pose proof (exp_pos x). nra. }
  nra.
Qed.

Lemma oral_difference_peak (kaVal keVal t : R) :
  0 < keVal -> keVal < kaVal ->
  let T := ln (kaVal / keVal) / (kaVal - keVal) in
  0 < T
  /\ exp (- keVal * t) - exp (- kaVal * t)
     <= exp (- keVal * T) - exp (- kaVal * T).
Proof.
  intros Hke Hlt T.
  assert (Hr : 1 < kaVal / keVal).
  { apply Rmult_lt_reg_r with keVal; [exact Hke|].
    unfold Rdiv. rewrite Rmult_assoc, Rinv_l by lra. lra. }
  assert (HT : (kaVal - keVal) * T = ln (kaVal / keVal)).
  { unfold T. field. lra. }
  split.
  - unfold T. apply Rdiv_lt_0_compat; [|lra].
    rewrite <- ln_1. apply ln_increasing; lra.
  - set (A := exp (- keVal * T)). set (B := exp (- kaVal * T)).
    assert (HA : 0 < A) by apply exp_pos.
    assert (HB : 0 < B) by apply exp_pos.
    assert (HAB : keVal * A = kaVal * B).
    { assert (Hq : A = B * (kaVal / keVal)).
      { unfold A, B.
        replace (kaVal / keVal) with (exp ((kaVal - keVal) * T))
          by (rewrite HT; apply exp_ln; lra).
        rewrite <- exp_plus. f_equal. lra. }
      rewrite Hq. field. lra. }
    set (x := - keVal * (t - T)).
    assert (H1 : exp (- keVal * t) = A * exp x).
    { unfold A, x. rewrite <- exp_plus. f_equal. lra. }
    assert (H2 : exp (- kaVal * t) = B * exp (kaVal / keVal * x)).
    { unfold B, x. rewrite <- exp_plus. f_equal. field. lra. }
    rewrite H1, H2.
    pose proof (exp_scaled_increment (kaVal / keVal) x ltac:(lra)) as Hc.
    set (X := exp x) in *. set (Y := exp (kaVal / keVal * x)) in *.
    assert (Hc' : kaVal * (X - 1) <= keVal * (Y - 1)).
    { apply (Rmult_le_compat_l keVal) in Hc; [|lra].
      replace (keVal * (kaVal / keVal * (X - 1))) with (kaVal * (X - 1))
        in Hc by (field; lra).
      exact Hc. }
    assert (Hk : keVal * (A * (X - 1)) <= keVal * (B * (Y - 1))).
    { replace (keVal * (A * (X - 1))) with (B * (kaVal * (X - 1))).
      - replace (keVal * (B * (Y - 1))) with (B * (keVal * (Y - 1))) by ring.
        apply Rmult_le_compat_l; lra.
      - transitivity (kaVal * B * (X - 1)); [ring|].
        rewrite <- HAB. ring. }
    apply Rmult_le_reg_l in Hk; [|exact Hke]. lra.
Qed.

(** X10.  On the oral route with [ka >= ke + 1e-6] the peak exists, the
    peak time is positive, and the peak concentration is the maximum of the
    single-dose oral response over all times. *)
Theorem oral_peak_is_maximum (st : State) :
  administrationType st = oral ->
  numericKe st + 1e-6 <= numericKa st ->
  exists T C,
    peak st = (Some T, Some C)
    /\ 0 < T
    /\ C = single st T
    /\ forall t, single st t <= C.
Proof.
  intros Horal Hfar.
  pose proof (numericKe_pos st) as Hke. pose proof (numericKa_pos st) as Hka.
  pose proof (numericV_pos st) as HV.
  pose proof (numericDose_nonneg st) as HD.
  pose proof (numericF_range st) as [HF0 HF1].
  set (T := ln (numericKa st / numericKe st) / (numericKa st - numericKe st)).
  exists T, (single st T).
  split; [apply (peak_oral_far st Horal); lra|].
  destruct (oral_difference_peak (numericKa st) (numericKe st) 0 Hke
                                 ltac:(lra)) as [HT _].
  split; [exact HT|]. split; [reflexivity|].
  intros t. unfold single. rewrite Horal.
  assert (Habs : 1e-6 <= Rabs (numericKa st - numericKe st))
    by (rewrite Rabs_pos_eq; lra).
  rewrite !oral_far by exact Habs.
  apply Rmult_le_compat_l.
  - apply Rmult_le_pos.
    + apply Rmult_le_pos; [apply Rmult_le_pos; lra|lra].
    + left. apply Rinv_0_lt_compat. nra.
  - apply (oral_difference_peak (numericKa st) (numericKe st) t Hke).
    lra.
Qed.

(** The default oral parameters: [ka] 0.5 against [ke] 0.1. *)
Lemma oral_peak_is_maximum_witness :
  exists T C,
    peak oralDefault = (Some T, Some C)
    /\ forall t, single oralDefault t <= C.
Proof.
  destruct (oral_peak_is_maximum oralDefault) as [T [C [Hp [_ [_ Hmax]]]]].
  - reflexivity.
  - destruct oralDefault_rates as [-> ->]. lra.
  - exists T, C. split; [exact Hp|exact Hmax].
Defined.

(** *** Bounds on the AUC *)

(** X11.  For samples at non-decreasing times whose concentrations all lie
    between [lo] and [hi], the AUC accumulated by the metrics loop lies
    between [lo] and [hi] times the span from the first to the last sample
    time; for a constant concentration it is that concentration times the
    span. *)
Theorem auc_between_rectangles (a : Sample.t) (rest : list Sample.t)
        (lo hi : R) :
  Spec.timeOrdered (a :: rest) ->
  Forall (fun s => lo <= Sample.concentration s <= hi) (a :: rest) ->
  let span := Sample.time (last (a :: rest) a) - Sample.time a in
  lo * span <= trapezoidLoop (a :: rest) <= hi * span.
Proof.
  unfold Spec.timeOrdered. cbv zeta.
  revert a. induction rest as [|b rest IH]; intros a Hs Hc;
    rewrite trapezoidLoop_spec.
  - cbn. lra.
  - inversion Hs as [|? ? Hs' Hd]; subst.
    inversion Hd as [|? ? Hab]; subst.
    inversion Hc as [|? ? Ha Hc']; subst.
    inversion Hc' as [|? ? Hb _]; subst.
    specialize (IH b Hs' Hc'). rewrite trapezoidLoop_spec in IH.
    change (Spec.trapezoid (a :: b :: rest))
      with ((Sample.concentration b + Sample.concentration a) / 2
            * (Sample.time b - Sample.time a) + Spec.trapezoid (b :: rest)).
    assert (Hlast : last (a :: b :: rest) a = last (b :: rest) b).
    { change (last (a :: b :: rest) a) with (last (b :: rest) a).
      apply last_default. discriminate. }
    rewrite Hlast.
    set (L := Sample.time (last (b :: rest) b)) in *.
    set (T := Spec.trapezoid (b :: rest)) in *.
    split; nra.
Qed.

(** Two samples one hour apart with concentrations 1 and 2. *)
Lemma auc_between_rectangles_witness :
  1 * (1 - 0) <= trapezoidLoop twoSamples <= 2 * (1 - 0).
Proof.
  apply (auc_between_rectangles
           (Sample.mk 0 1 (Js.Num 5) (Js.Num 15) false subtherapeutic)
           [Sample.mk 1 2 (Js.Num 5) (Js.Num 15) false subtherapeutic]
           1 2).
  - repeat constructor. cbn. lra.
  - repeat constructor; cbn; lra.
Defined.

(** *** Percentage in range *)

Lemma calculateMetrics_percent {rt : Js.Runtime} (st : State)
      (data : list Sample.t) (m : Metrics) :
  calculateMetrics st data = Some m ->
  percentInRange m
  = Js.toFixed 1 (INR (length (filter Sample.inRange data))
                  / INR (length data) * 100).
Proof.
  unfold calculateMetrics. destruct data as [|d0 rest]; [discriminate|].
  destruct (peak st) as [T C]. destruct (steadyState st (d0 :: rest))
    as [[a b] c]. intros H. injection H as <-. reflexivity.
Qed.

Lemma filter_all {A : Type} (p : A -> bool) (l : list A) :
  Forall (fun x => p x = true) l -> filter p l = l.
Proof.
  induction 1 as [|x l Hx _ IH]; cbn; [reflexivity|].
  now rewrite Hx, IH.
Qed.

Lemma filter_none {A : Type} (p : A -> bool) (l : list A) :
  Forall (fun x => p x = false) l -> filter p l = [].
Proof.
  induction 1 as [|x l Hx _ IH]; cbn; [reflexivity|].
  now rewrite Hx, IH.
Qed.

(** X12.  For non-empty data the reported percentage in range lies between
    0 and 100; it is 100 when every sample is in range and 0 when none
    is. *)
Theorem percent_in_range_bounds {rt : Js.Runtime} (st : State)
        (data : list Sample.t) :
  data <> [] ->
  exists m,
    calculateMetrics st data = Some m
    /\ 0 <= percentInRange m <= 100
    /\ (Forall (fun s => Sample.inRange s = true) data ->
        percentInRange m = 100)
    /\ (Forall (fun s => Sample.inRange s = false) data ->
        percentInRange m = 0).
Proof.
  intros Hne. destruct (calculateMetrics_defined st data Hne) as [m Hm].
  exists m. split; [exact Hm|].
  rewrite (calculateMetrics_percent st data m Hm).
  assert (Hlen : 0 < INR (length data)).
  { destruct data; [contradiction|]. apply lt_0_INR. cbn. lia. }
  assert (H0 : Js.toFixed 1 0 = 0).
  { replace 0 with (IZR 0 / 10 ^ 1) by (cbn [pow]; lra).
    apply toFixed_exact. lia. }
  assert (H100 : Js.toFixed 1 100 = 100).
  { replace 100 with (IZR 1000 / 10 ^ 1) by (cbn [pow]; lra).
    apply toFixed_exact. lia. }
  set (k := INR (length (filter Sample.inRange data))).
  assert (Hk : 0 <= k <= INR (length data)).
  { unfold k. split; [apply pos_INR|]. apply le_INR, filter_length_le. }
  assert (Hq : 0 <= k / INR (length data) * 100 <= 100).
  { assert (Hi : 0 < / INR (length data)) by now apply Rinv_0_lt_compat.
    assert (Hone : INR (length data) * / INR (length data) = 1)
      by (apply Rinv_r; lra).
    unfold Rdiv. split; nra. }
  split; [|split].
  - split.
    + apply Rle_trans with (Js.toFixed 1 0); [rewrite H0; lra|].
      apply toFixed_mono. lra.
    + apply Rle_trans with (Js.toFixed 1 100); [|rewrite H100; lra].
      apply toFixed_mono. lra.
  - intros Hall. unfold k. rewrite (filter_all _ _ Hall).
    replace (INR (length data) / INR (length data) * 100) with 100
      by (field; lra).
    exact H100.
  - intros Hnone. unfold k. rewrite (filter_none _ _ Hnone). cbn [length INR].
    replace (0 / INR (length data) * 100) with 0 by (field; lra).
    exact H0.
Qed.

(** Two samples, neither in range. *)
Lemma percent_in_range_bounds_witness :
  exists m,
    @calculateMetrics truncating initialState twoSamples = Some m
    /\ percentInRange m = 0.
Proof.
  destruct (percent_in_range_bounds (rt := truncating) initialState
                                    twoSamples)
    as [m [Hm [_ [_ Hnone]]]]; [discriminate|].
  exists m. split; [exact Hm|]. apply Hnone. repeat constructor.
Defined.

(** *** Order of the steady-state values *)






(** *** The accumulation ceiling of repeated IV doses *)

Lemma exp_pow (x : R) (n : nat) : exp x ^ n = exp (INR n * x).
Proof.
  induction n as [|n IH].
  - cbn. rewrite Rmult_0_l, exp_0. reflexivity.
  - cbn [pow]. rewrite IH, S_INR, <- exp_plus. f_equal. lra.
Qed.

Lemma dosesGiven_prefix (t tau : R) (n : Z) :
  0 < tau ->
  exists m,
    Spec.dosesGiven t tau n = seq 0 m
    /\ (m <= Z.to_nat n)%nat
    /\ forall i, (i < m)%nat -> INR i * tau <= t.
Proof.
  intros Htau. unfold Spec.dosesGiven.
  induction (Z.to_nat n) as [|N IH].
  - exists 0%nat. split; [reflexivity|]. split; [lia|]. intros i Hi. lia.
  - destruct IH as [m [Hm [Hle Hall]]].
    rewrite seq_S, filter_app. cbn [Nat.add filter].
    unfold Js.Rleb at 2. destruct (Rle_dec (INR N * tau) t) as [Hin|Hout].
    + exists (S N). split; [|split; [lia|]].
      * rewrite filter_all; [now rewrite seq_S|].
        apply Forall_forall. intros i Hi. apply in_seq in Hi.
        apply Rleb_true.
        assert (INR i <= INR N) by (apply le_INR; lia). nra.
      * intros i Hi. assert (INR i <= INR N) by (apply le_INR; lia). nra.
    + exists m. rewrite Hm, app_nil_r. split; [reflexivity|].
      split; [lia|exact Hall].
Qed.

Lemma geometric_tail (keVal tau : R) :
  0 < keVal -> 0 < tau ->
  forall m t,
    (forall i, (i < m)%nat -> INR i * tau <= t) ->
    Spec.sum (map (fun i => exp (- keVal * (t - INR i * tau))) (seq 0 m))
    * (1 - exp (- keVal * tau))
    <= 1 - exp (- keVal * tau) ^ m.
Proof.
  intros Hk Htau. set (q := exp (- keVal * tau)).
  assert (Hq0 : 0 < q) by apply exp_pos.
  assert (Hq1 : q < 1).
  { unfold q. rewrite <- exp_0. apply exp_increasing. nra. }
  induction m as [|m IH]; intros t Hall.
  - cbn. lra.
  - rewrite <- cons_seq, <- seq_shift. cbn [map]. rewrite map_map.
    change (Spec.sum (?x :: ?l)) with (x + Spec.sum l).
    change (INR 0) with 0. replace (t - 0 * tau) with t by lra.
    assert (Hshift : map (fun i => exp (- keVal * (t - INR (S i) * tau)))
                         (seq 0 m)
                     = map (fun i => exp (- keVal * (t - tau - INR i * tau)))
                           (seq 0 m)).
    { apply map_ext. intros i. f_equal. rewrite S_INR. lra. }
    rewrite Hshift.
    assert (IH' := IH (t - tau)).
    assert (Hprev : forall i, (i < m)%nat -> INR i * tau <= t - tau).
    { intros i Hi. specialize (Hall (S i) ltac:(lia)).
      rewrite S_INR in Hall. lra. }
    specialize (IH' Hprev).
    assert (Hfirst : exp (- keVal * t) <= q ^ m).
    { unfold q. rewrite exp_pow. apply exp_le.
      specialize (Hall m ltac:(lia)). nra. }
    cbn [pow]. set (S0 := Spec.sum _) in *. set (Q := q ^ m) in *.
    nra.
Qed.

Lemma iv_superposition_ceiling (t C0 keVal tau : R) (n : Z) :
  0 <= C0 -> 0 < keVal -> 0 < tau ->
  calculateMultipleDoses t (fun x => calculateIVBolus x C0 keVal) tau n
  * (1 - exp (- keVal * tau))
  <= C0 * (1 - exp (- keVal * tau) ^ Z.to_nat n).
Proof.
  intros HC Hk Htau. rewrite calculateMultipleDoses_sum.
  destruct (dosesGiven_prefix t tau n Htau) as [m [-> [Hle Hall]]].
  set (q := exp (- keVal * tau)).
  assert (Hq0 : 0 < q) by apply exp_pos.
  assert (Hq1 : q < 1).
  { unfold q. rewrite <- exp_0. apply exp_increasing. nra. }
  assert (Hsum : Spec.sum (map (fun i => calculateIVBolus (t - INR i * tau)
                                                          C0 keVal)
                               (seq 0 m))
                 = C0 * Spec.sum (map (fun i =>
                                         exp (- keVal * (t - INR i * tau)))
                                      (seq 0 m))).
  { induction (seq 0 m) as [|i l IH]; cbn [map].
    - cbn. lra.
    - change (Spec.sum (?x :: ?l)) with (x + Spec.sum l).
      rewrite IH. unfold calculateIVBolus.
      change (Spec.sum (?x :: ?l)) with (x + Spec.sum l). lra. }
  rewrite Hsum.
  pose proof (geometric_tail keVal tau Hk Htau m t Hall) as Hg. fold q in Hg.
  assert (Hpow : q ^ Z.to_nat n <= q ^ m).
  { replace (Z.to_nat n) with (m + (Z.to_nat n - m))%nat by lia.
    rewrite pow_add.
    assert (0 < q ^ m) by (apply pow_lt; exact Hq0).
    assert (q ^ (Z.to_nat n - m) <= 1).
    { rewrite <- (pow1 (Z.to_nat n - m)). apply pow_incr. lra. }
    nra. }
  set (S0 := Spec.sum _) in *.
  rewrite Rmult_assoc. apply Rmult_le_compat_l; [exact HC|]. lra.
Qed.

(** X14.  On the IV route, however many doses are given, the concentration
    never exceeds the accumulation ceiling
    [(dose / volume) / (1 - exp (- ke * interval))]; with [n] doses it is
    at most that ceiling times [1 - exp (- ke * interval) ^ n]. *)
Theorem iv_accumulation_ceiling {rt : Js.Runtime} (st : State) (t : R) :
  administrationType st = iv ->
  let q := exp (- numericKe st * intv st) in
  let C0 := numericDose st / numericV st in
  0 < q < 1
  /\ concentrationAt st t * (1 - q) <= C0 * (1 - q ^ Z.to_nat (nDose st))
  /\ concentrationAt st t <= C0 / (1 - q).
Proof.
  intros Hiv q C0.
  pose proof (numericKe_pos st) as Hk. pose proof (intv_ge st) as Hi.
  assert (HC : 0 <= C0).
  { unfold C0. apply Rmult_le_pos; [apply numericDose_nonneg|].
    left. apply Rinv_0_lt_compat, numericV_pos. }
  assert (Hq0 : 0 < q) by apply exp_pos.
  assert (Hq1 : q < 1).
  { unfold q. rewrite <- exp_0. apply exp_increasing. nra. }
  assert (Hmain : concentrationAt st t * (1 - q)
                  <= C0 * (1 - q ^ Z.to_nat (nDose st))).
  { unfold concentrationAt.
    replace (single st)
      with (fun x => calculateIVBolus x C0 (numericKe st))
      by (unfold single; now rewrite Hiv).
    apply iv_superposition_ceiling; lra. }
  split; [lra|]. split; [exact Hmain|].
  assert (Hpow : 0 < q ^ Z.to_nat (nDose st)) by (apply pow_lt; exact Hq0).
  apply Rmult_le_reg_r with (1 - q); [lra|].
  unfold Rdiv. rewrite Rmult_assoc, Rinv_l by lra. nra.
Qed.

(** The initial state at hour 100. *)
Lemma iv_accumulation_ceiling_witness :
  @concentrationAt truncating initialState 100
  <= numericDose initialState / numericV initialState
     / (1 - exp (- numericKe initialState * intv initialState)).
Proof.
  apply (iv_accumulation_ceiling (rt := truncating) initialState 100).
  reflexivity.
Defined.

(** *** What the metrics tiles show *)

(** X15.  For non-empty data the half-life, peak time and peak
    concentration shown are within 0.0005 of the computed values, the
    percentage shown is within 0.05 of the computed one, and the peak is
    shown exactly when it was computed. *)
Theorem reported_metrics_rounding {rt : Js.Runtime} (st : State)
        (data : list Sample.t) :
  data <> [] ->
  exists m,
    calculateMetrics st data = Some m
    /\ 0 <= halfLife m
    /\ Rabs (halfLife m - ln 2 / numericKe st) <= 0.0005
    /\ (forall T C,
          peak st = (Some T, Some C) ->
          exists T' C',
            Tmax m = Some T' /\ Cmax m = Some C'
            /\ Rabs (T' - T) <= 0.0005 /\ Rabs (C' - C) <= 0.0005)
    /\ (peak st = (None, None) -> Tmax m = None /\ Cmax m = None)
    /\ Rabs (percentInRange m
             - INR (length (filter Sample.inRange data))
               / INR (length data) * 100) <= 0.05.
Proof.
  intros Hne. destruct (calculateMetrics_defined st data Hne) as [m Hm].
  exists m. split; [exact Hm|].
  pose proof (calculateMetrics_percent st data m Hm) as Hp.
  apply calculateMetrics_fields in Hm.
  destruct Hm as [_ [Hh [HT [HC _]]]].
  split; [|split; [|split; [|split]]].
  - rewrite Hh. apply toFixed_nonneg. left. apply (halfLifeOf_pos st).
  - rewrite Hh, <- toFixed3_half_unit. apply toFixed_error.
  - intros T C Hpk. rewrite Hpk in HT, HC. cbn in HT, HC.
    exists (Js.toFixed 3 T), (Js.toFixed 3 C).
    split; [exact HT|]. split; [exact HC|].
    rewrite <- toFixed3_half_unit. split; apply toFixed_error.
  - intros Hpk. rewrite Hpk in HT, HC. auto.
  - rewrite Hp. replace 0.05 with (/ (2 * 10 ^ 1)) by (cbn [pow]; lra).
    apply toFixed_error.
Qed.

(** The default oral parameters over two samples. *)
Lemma reported_metrics_rounding_witness :
  exists m,
    @calculateMetrics truncating oralDefault twoSamples = Some m
    /\ Rabs (halfLife m - ln 2 / numericKe oralDefault) <= 0.0005.
Proof.
  destruct (reported_metrics_rounding (rt := truncating) oralDefault
                                      twoSamples)
    as [m [Hm [_ [Hh _]]]]; [discriminate|].
  exists m. split; [exact Hm|exact Hh].
Defined.

(** *** The tooltip of a simulated sample *)

(** X16.  The tooltip renders nothing exactly when it is inactive or its
    payload is missing or empty.  For a sample of a run with a numeric
    band it shows the sample's time exactly, the concentration within
    0.00005, and the status in green exactly when the sample is in range,
    in red when toxic and in orange when subtherapeutic. *)
Theorem tooltip_of_simulated_sample :
  (forall active payload,
      CustomTooltip active payload = None
      <-> active = false \/ payload = None \/ payload = Some [])
  /\ (forall (rt : Js.Runtime) st lo hi fuel data s others,
         therapeuticMin st = Js.Num lo -> therapeuticMax st = Js.Num hi ->
         simulatePK st fuel = Some data -> In s data ->
         exists v,
           CustomTooltip true (Some (s :: others)) = Some v
           /\ shownTime v = Sample.time s
           /\ Rabs (shownConcentration v - Sample.concentration s)
              <= 0.00005
           /\ shownStatus v = Sample.status s
           /\ (shownColour v = green600 <-> Sample.inRange s = true)
           /\ (shownColour v = red600 <-> Sample.status s = toxic)
           /\ (shownColour v = orange600
               <-> Sample.status s = subtherapeutic)).
Proof.
  split.
  - intros active payload. unfold CustomTooltip.
    destruct active; cbn [negb].
    + destruct payload as [[|d l]|]; split; intros H;
        try discriminate; auto;
        destruct H as [H|[H|H]]; discriminate.
    + split; auto.
  - intros rt st lo hi fuel data s others Hlo Hhi Hrun Hs.
    destruct (lastIndex_exists st) as [K HK].
    pose proof (simulatePK_result st K fuel data HK Hrun) as Hdata.
    rewrite Hdata in Hs. apply in_map_iff in Hs.
    destruct Hs as [k [<- _]].
    destruct (sample_classification st (INR k * dt) lo hi Hlo Hhi)
      as [Hin _].
    eexists. split; [reflexivity|]. cbn [shownTime shownConcentration
                                          shownColour shownStatus].
    split.
    { rewrite samplePoint_quarter. cbn [Sample.time].
      apply toFixed_quarter. }
    split.
    { replace 0.00005 with (/ (2 * 10 ^ 4)) by (cbn [pow]; lra).
      apply toFixed_error. }
    split; [reflexivity|].
    cbv zeta in Hin. rewrite Hin.
    destruct (Sample.status (samplePoint st (INR k * dt)));
      repeat split; intros; try discriminate; try reflexivity.
Qed.

(** The first sample of the initial state. *)
Lemma tooltip_of_simulated_sample_witness :
  exists v,
    CustomTooltip true
                  (Some [@samplePoint truncating initialState (INR 0 * dt)])
    = Some v
    /\ shownTime v
       = Sample.time (@samplePoint truncating initialState (INR 0 * dt)).
Proof.
  destruct (proj2 tooltip_of_simulated_sample truncating initialState 5 15
                  130%nat _
                  (@samplePoint truncating initialState (INR 0 * dt)) []
                  eq_refl eq_refl
                  (simulatePK_grid initialState 128 130 initial_lastIndex
                                   ltac:(lia))
                  (or_introl eq_refl))
    as [v [Hv [Ht _]]].
  exists v. split; [exact Hv|exact Ht].
Defined.

(** *** The defensive helpers, field by field *)

Lemma floor_clamp (lo : R) (x : Js.Number) :
  0 <= lo ->
  Rmax lo (Js.or_else (Js.parseFloat x) lo)
  = match x with Js.NaN => lo | Js.Num r => Rmax lo r end.
Proof.
  intros Hlo. unfold Js.parseFloat. destruct x as [|r]; cbn [Js.or_else].
  - apply Rmax_left. lra.
  - destruct (Req_dec_T r 0) as [->|_]; [|reflexivity].
    rewrite !Rmax_left by lra. reflexivity.
Qed.

(** X17.  Each helper is the plain clamp of a numeric field and the floor
    for NaN: the [|| fallback] only matters for NaN, so a numeric value
    within range is used unchanged and one below the floor (zero and
    negative values included) is raised to the floor. *)
Theorem helpers_are_clamps {rt : Js.Runtime} (st : State) :
  nDose st = match Js.parseInt (numberOfDoses st) with
             | None => 1%Z
             | Some z => Z.max 1 z
             end
  /\ intv st = match dosingInterval st with
               | Js.NaN => 0.1 | Js.Num r => Rmax 0.1 r end
  /\ numericDose st = match dose st with
                      | Js.NaN => 0 | Js.Num r => Rmax 0 r end
  /\ numericV st = match volume st with
                   | Js.NaN => 0.0001 | Js.Num r => Rmax 0.0001 r end
  /\ numericKe st = match ke st with
                    | Js.NaN => 1e-9 | Js.Num r => Rmax 1e-9 r end
  /\ numericKa st = match ka st with
                    | Js.NaN => 1e-9 | Js.Num r => Rmax 1e-9 r end
  /\ numericF st = match bioavailability st with
                   | Js.NaN => 0 | Js.Num r => Rmin 1 (Rmax 0 r) end.
Proof.
  unfold nDose, intv, numericDose, numericV, numericKe, numericKa, numericF,
    epsilon.
  rewrite !floor_clamp by lra.
  split; [|repeat split].
  - unfold Js.or_elseZ. destruct (Js.parseInt (numberOfDoses st)) as [z|];
      [|reflexivity].
    destruct (Z.eqb_spec z 0); lia.
  - destruct (bioavailability st); [|reflexivity].
    apply Rmin_right. lra.
Qed.

(* ================================================================== *)
(** ** Further properties of the legacy component *)

Lemma legacy_data_run (st : Legacy.State) :
  0 < Legacy.interval st -> 0 <= Legacy.duration st ->
  exists fuel0,
    forall fuel, (fuel0 <= fuel)%nat ->
      Legacy.data st fuel
      = Some (map (fun t => Legacy.mkPoint (INR t) (Spec.legacyConc st t))
                  (seq 0 (S (Z.to_nat (Zfloor (Legacy.duration st)))))).
Proof.
  intros Hi Hd.
  set (D := Z.to_nat (Zfloor (Legacy.duration st))).
  set (Q := Z.to_nat (Zfloor (Legacy.duration st / Legacy.interval st))).
  exists (Nat.max D Q + 2)%nat. intros fuel Hfuel.
  pose proof (floor_index (Legacy.duration st) Hd) as HD. fold D in HD.
  unfold Legacy.data.
  rewrite (timeLoop_run st Hi D fuel HD) with (m := S D) (j := 0%nat)
                                              (acc := []);
    [reflexivity|fold Q; lia|lia|lia].
Qed.

Lemma legacyConc_as_superposition (st : Legacy.State) (t : nat) :
  0 < Legacy.interval st ->
  exists n : Z,
    (1 <= n)%Z
    /\ Spec.legacyConc st t
       = calculateMultipleDoses
           (INR t)
           (fun tau => calculateIVBolus tau (Legacy.dose st / 1)
                                        (Legacy.k st))
           (Legacy.interval st) n.
Proof.
  intros Hi.
  pose proof (lastDose_floor st Hi (INR t) (pos_INR t)) as HM.
  set (M := Z.to_nat (Zfloor (INR t / Legacy.interval st))) in *.
  exists (Z.of_nat (S M)). split; [lia|].
  unfold Spec.legacyConc. fold M.
  apply (legacy_sum_improved st Hi (INR t) M); [exact HM|].
  destruct HM as [_ HM2]. rewrite <- INR_IZR_INZ.
  apply (Rmult_lt_compat_r (Legacy.interval st)) in HM2; [|exact Hi].
  unfold Rdiv in HM2. rewrite Rmult_assoc, Rinv_l, Rmult_1_r in HM2 by lra.
  exact HM2.
Qed.

(** X18.  With a negative duration the legacy curve is empty.  With a
    non-negative duration and a positive interval the computation
    terminates with one point per whole hour from 0 to the duration, the
    point at index [t] carrying time [t]. *)
Theorem legacy_data_shape (st : Legacy.State) :
  (Legacy.duration st < 0 ->
   forall fuel, (1 <= fuel)%nat -> Legacy.data st fuel = Some [])
  /\ (0 < Legacy.interval st -> 0 <= Legacy.duration st ->
      exists fuel0,
        forall fuel, (fuel0 <= fuel)%nat ->
          exists data,
            Legacy.data st fuel = Some data
            /\ INR (length data) - 1 <= Legacy.duration st
               < INR (length data)
            /\ forall t p,
                nth_error data t = Some p -> Legacy.time p = INR t).
Proof.
  split.
  - intros Hd fuel Hfuel. unfold Legacy.data.
    destruct fuel as [|fuel]; [lia|]. cbn [Legacy.timeLoop INR].
    destruct (Rle_dec 0 (Legacy.duration st)); [lra|reflexivity].
  - intros Hi Hd. destruct (legacy_data_run st Hi Hd) as [fuel0 Hrun].
    exists fuel0. intros fuel Hfuel. eexists.
    split; [apply Hrun; exact Hfuel|].
    rewrite length_map, length_seq.
    pose proof (floor_index (Legacy.duration st) Hd) as HD.
    split.
    + rewrite S_INR in *. lra.
    + intros t p Hp.
      assert (Ht : (t < S (Z.to_nat (Zfloor (Legacy.duration st))))%nat).
      { apply nth_error_Some_lt in Hp.
        now rewrite length_map, length_seq in Hp. }
      rewrite nth_error_map_seq in Hp by exact Ht.
      injection Hp as <-. reflexivity.
Qed.

(** The legacy defaults: 49 points for a duration of 48. *)
Lemma legacy_data_shape_witness :
  exists fuel0,
    forall fuel, (fuel0 <= fuel)%nat ->
      exists data,
        Legacy.data legacyInitial fuel = Some data
        /\ INR (length data) - 1 <= 48 < INR (length data).
Proof.
  destruct (proj2 (legacy_data_shape legacyInitial)) as [fuel0 H].
  - cbn. lra.
  - cbn. lra.
  - exists fuel0. intros fuel Hfuel.
    destruct (H fuel Hfuel) as [data [Hrun [Hlen _]]].
    exists data. split; [exact Hrun|exact Hlen].
Defined.

(** X19.  For a positive half-life, before the second dose is due the
    legacy curve is the decay of the first dose,
    [dose * exp (- ln 2 / halfLife * t)]; at the hour equal to the
    half-life it is half the dose. *)
Theorem legacy_first_dose_decay (st : Legacy.State) (t : nat) :
  0 < Legacy.halfLife st ->
  0 < Legacy.interval st ->
  INR t <= Legacy.duration st ->
  INR t < Legacy.interval st ->
  exists fuel0,
    forall fuel, (fuel0 <= fuel)%nat ->
      exists data c,
        Legacy.data st fuel = Some data
        /\ nth_error data t = Some (Legacy.mkPoint (INR t) c)
        /\ c = Legacy.dose st * exp (- (ln 2 / Legacy.halfLife st) * INR t)
        /\ (INR t = Legacy.halfLife st -> c = Legacy.dose st / 2).
Proof.
  intros Hh Hi Hd Hlt.
  assert (Hd0 : 0 <= Legacy.duration st) by (pose proof (pos_INR t); lra).
  destruct (legacy_data_run st Hi Hd0) as [fuel0 Hrun].
  exists fuel0. intros fuel Hfuel. eexists. exists (Spec.legacyConc st t).
  split; [apply Hrun; exact Hfuel|].
  pose proof (floor_index (Legacy.duration st) Hd0) as HD.
  assert (HtD : (t < S (Z.to_nat (Zfloor (Legacy.duration st))))%nat)
    by (apply INR_lt; lra).
  split; [now rewrite nth_error_map_seq by exact HtD|].
  assert (Hc : Spec.legacyConc st t
               = Legacy.dose st
                 * exp (- (ln 2 / Legacy.halfLife st) * INR t)).
  { destruct (legacyConc_as_superposition st t Hi) as [n [Hn ->]].
    rewrite calculateMultipleDoses_sum, dosesGiven_first;
      [|split; [apply pos_INR|exact Hlt]|exact Hn].
    cbn [map]. unfold Spec.sum. cbn [fold_right].
    change (INR 0) with 0. unfold calculateIVBolus, Legacy.k.
    replace (INR t - 0 * Legacy.interval st) with (INR t) by lra.
    unfold Rdiv at 1. rewrite Rinv_1. lra. }
  split; [exact Hc|].
  intros Heq. rewrite Hc, Heq.
  replace (- (ln 2 / Legacy.halfLife st) * Legacy.halfLife st)
    with (- ln 2) by (field; lra).
  rewrite exp_Ropp, exp_ln by lra. lra.
Qed.

(** The legacy defaults at hour 6, the half-life: 250. *)
Lemma legacy_first_dose_decay_witness :
  exists fuel0,
    forall fuel, (fuel0 <= fuel)%nat ->
      exists data,
        Legacy.data legacyInitial fuel = Some data
        /\ nth_error data 6 = Some (Legacy.mkPoint (INR 6) (500 / 2)).
Proof.
  assert (H6 : INR 6 = 6).
  { rewrite INR_IZR_INZ. reflexivity. }
  destruct (legacy_first_dose_decay legacyInitial 6) as [fuel0 H].
  - cbn. lra.
  - cbn. lra.
  - rewrite H6. cbn. lra.
  - rewrite H6. cbn. lra.
  - exists fuel0. intros fuel Hfuel.
    destruct (H fuel Hfuel) as [data [c [Hrun [Hnth [_ Hhalf]]]]].
    exists data. split; [exact Hrun|].
    rewrite Hnth. f_equal. f_equal. apply Hhalf.
    rewrite H6. reflexivity.
Defined.

(** X20.  For a non-negative dose, a positive half-life and a positive
    interval, every point of the legacy curve is non-negative and never
    exceeds the accumulation ceiling
    [dose / (1 - exp (- ln 2 / halfLife * interval))]. *)
Theorem legacy_accumulation_ceiling (st : Legacy.State) (t : nat) :
  0 <= Legacy.dose st -> 0 < Legacy.halfLife st ->
  0 < Legacy.interval st -> INR t <= Legacy.duration st ->
  let q := exp (- (ln 2 / Legacy.halfLife st) * Legacy.interval st) in
  0 < q < 1
  /\ exists fuel0,
      forall fuel, (fuel0 <= fuel)%nat ->
        exists data c,
          Legacy.data st fuel = Some data
          /\ nth_error data t = Some (Legacy.mkPoint (INR t) c)
          /\ 0 <= c <= Legacy.dose st / (1 - q).
Proof.
  intros Hdose Hh Hi Hd q.
  assert (Hk : 0 < Legacy.k st).
  { unfold Legacy.k. apply Rdiv_lt_0_compat; [apply ln2_pos|exact Hh]. }
  assert (Hq0 : 0 < q) by apply exp_pos.
  assert (Hq1 : q < 1).
  { unfold q. rewrite <- exp_0. apply exp_increasing.
    fold (Legacy.k st). nra. }
  split; [lra|].
  assert (Hd0 : 0 <= Legacy.duration st) by (pose proof (pos_INR t); lra).
  destruct (legacy_data_run st Hi Hd0) as [fuel0 Hrun].
  exists fuel0. intros fuel Hfuel. eexists. exists (Spec.legacyConc st t).
  split; [apply Hrun; exact Hfuel|].
  pose proof (floor_index (Legacy.duration st) Hd0) as HD.
  assert (HtD : (t < S (Z.to_nat (Zfloor (Legacy.duration st))))%nat)
    by (apply INR_lt; lra).
  split; [now rewrite nth_error_map_seq by exact HtD|].
  destruct (legacyConc_as_superposition st t Hi) as [n [Hn ->]].
  assert (HC : 0 <= Legacy.dose st / 1) by lra.
  split.
  - apply superposition_nonneg. intros x _. now apply iv_nonneg.
  - pose proof (iv_superposition_ceiling (INR t) (Legacy.dose st / 1)
                                         (Legacy.k st) (Legacy.interval st)
                                         n HC Hk Hi) as Hceil.
    fold (Legacy.k st) in q. fold q in Hceil.
    assert (Hpow : 0 < q ^ Z.to_nat n) by (apply pow_lt; exact Hq0).
    apply Rmult_le_reg_r with (1 - q); [lra|].
    unfold Rdiv at 2. rewrite Rmult_assoc, Rinv_l by lra. nra.
Qed.

(** The legacy defaults at hour 40. *)
Lemma legacy_accumulation_ceiling_witness :
  exists fuel0,
    forall fuel, (fuel0 <= fuel)%nat ->
      exists data c,
        Legacy.data legacyInitial fuel = Some data
        /\ nth_error data 40 = Some (Legacy.mkPoint (INR 40) c)
        /\ 0 <= c.
Proof.
  destruct (legacy_accumulation_ceiling legacyInitial 40) as [_ [fuel0 H]].
  - cbn. lra.
  - cbn. lra.
  - cbn. lra.
  - rewrite INR_IZR_INZ. cbn. lra.
  - exists fuel0. intros fuel Hfuel.
    destruct (H fuel Hfuel) as [data [c [Hrun [Hnth [Hc _]]]]].
    exists data, c. auto.
Defined.

(* ================================================================== *)
(** ** Further properties of the concentration model *)

(** X21.  Adding doses to the schedule never lowers the concentration at
    any time, for a response that is non-negative from its administration
    onwards. *)
Theorem more_doses_never_lower (t : R) (f : R -> R) (tau : R) (n m : Z) :
  (forall x, 0 <= x -> 0 <= f x) -> (n <= m)%Z ->
  calculateMultipleDoses t f tau n <= calculateMultipleDoses t f tau m.
Proof.
  intros Hf Hnm. rewrite !calculateMultipleDoses_sum. unfold Spec.dosesGiven.
  replace (Z.to_nat m) with (Z.to_nat n + (Z.to_nat m - Z.to_nat n))%nat
    by lia.
  rewrite seq_app, filter_app, map_app, sum_app.
  assert (0 <= Spec.sum
                 (map (fun i => f (t - INR i * tau))
                      (filter (fun i => Js.Rleb (INR i * tau) t)
                              (seq (0 + Z.to_nat n)
                                   (Z.to_nat m - Z.to_nat n))))).
  { apply sum_nonneg. apply Forall_forall. intros y Hy.
    apply in_map_iff in Hy. destruct Hy as [i [<- Hi]].
    apply filter_In in Hi. destruct Hi as [_ Hi].
    apply Rleb_true in Hi. apply Hf. lra. }
  lra.
Qed.

(** Two doses against five at hour 20. *)
Lemma more_doses_never_lower_witness :
  calculateMultipleDoses 20 (fun x => x) 8 2
  <= calculateMultipleDoses 20 (fun x => x) 8 5.
Proof.
  apply more_doses_never_lower; [intros x Hx; exact Hx|lia].
Defined.

(** X22.  The half-life shown by the metrics is the time in which the IV
    single-dose response halves: [single (t + halfLife) = single t / 2]
    at every [t]. *)
Theorem iv_halves_every_half_life (st : State) (t : R) :
  administrationType st = iv ->
  single st (t + ln 2 / numericKe st) = single st t / 2.
Proof.
  intros Hiv. unfold single. rewrite Hiv. cbv zeta.
  unfold calculateIVBolus. pose proof (numericKe_pos st) as Hk.
  replace (- numericKe st * (t + ln 2 / numericKe st))
    with (- numericKe st * t + - ln 2) by (field; lra).
  rewrite exp_plus, exp_Ropp, exp_ln by lra. lra.
Qed.

(** The initial state at hour 3. *)
Lemma iv_halves_every_half_life_witness :
  single initialState (3 + ln 2 / numericKe initialState)
  = single initialState 3 / 2.
Proof. apply iv_halves_every_half_life. reflexivity. Defined.

(** X23.  After clamping, the horizon is always [n * interval + 24]: the
    alternative 24 of the [Math.max] is never the larger one.  Sampling
    therefore runs past every dose of the schedule, and the last sample of
    a run lies less than a quarter of an hour before the horizon. *)
Theorem horizon_is_schedule_plus_24 {rt : Js.Runtime} (st : State) :
  maxTime st = IZR (nDose st) * intv st + 24
  /\ 24.1 <= maxTime st
  /\ (forall i : Z, (i < nDose st)%Z -> IZR i * intv st + 24 < maxTime st)
  /\ forall fuel data d,
      simulatePK st fuel = Some data ->
      maxTime st - 0.25 < Sample.time (last data d).
Proof.
  pose proof (nDose_ge_1 st) as Hn. pose proof (intv_ge st) as Hi.
  assert (HnR : 1 <= IZR (nDose st)) by (apply (IZR_le 1); exact Hn).
  assert (Hmax : maxTime st = IZR (nDose st) * intv st + 24).
  { unfold maxTime. apply Rmax_right. nra. }
  split; [exact Hmax|]. split; [rewrite Hmax; nra|]. split.
  - intros i Hlt. rewrite Hmax.
    assert (IZR i + 1 <= IZR (nDose st)).
    { rewrite <- plus_IZR. apply IZR_le. lia. }
    nra.
  - intros fuel data d Hrun. destruct (lastIndex_exists st) as [K HK].
    rewrite (simulatePK_result st K fuel data HK Hrun), last_map_seq.
    rewrite samplePoint_quarter. cbn [Sample.time].
    destruct HK as [_ HK2]. rewrite S_INR in HK2. unfold dt in *. lra.
Qed.

(** The initial state: horizon 32, last sample at 32. *)
Lemma horizon_is_schedule_plus_24_witness :
  exists data,
    @simulatePK truncating initialState 130 = Some data
    /\ @maxTime truncating initialState - 0.25
       < Sample.time (last data (@samplePoint truncating initialState 0)).
Proof.
  pose proof (simulatePK_grid initialState 128 130 initial_lastIndex
                              ltac:(lia)) as Hrun.
  eexists. split; [exact Hrun|].
  apply (proj2 (proj2 (proj2 (horizon_is_schedule_plus_24
                                (rt := truncating) initialState)))
               130%nat _ _ Hrun).
Defined.




